(** * Houdini autosave prompt: a shallow embedding of [scripts/python/autosave.py]

    The script is a timer-driven state machine living inside the host's GUI
    event loop.  The embedding has three layers:

    - [Py]: the Python values the attribute [autosave_interval] can hold and
      the builtins applied to it ([float], [int], [*]);
    - the world the manager acts on: its own attributes, the Qt objects it
      created (timers, message boxes), the host (hou) and a chronological
      trace of every call made to logger, Qt and host;
    - the methods of [AutosaveManager], written in a state-and-exception
      monad, and the session: the callbacks Qt and the host invoke.

    Qt and hou are not part of the script.  They are modelled by what the
    script sets and reads of them:

    - an object is a record, a reference to it is its position in the list
      of the objects of its kind, and no object is ever freed: a timer or a
      prompt the manager no longer holds stays where it is;
    - [stop], [start], [show] and [close] change the object they are called
      on and nothing else; signals are delivered by the event loop, one
      [event] of the session for each delivery;
    - the host answers [hscript], fails or not on [hipFile.save()], and
      reports hip file events as events of the session. *)

From Stdlib Require Import ZArith String Ascii List Bool Lia.
From Stdlib Require Import Floats.PrimFloat Floats.FloatOps Floats.SpecFloat.
From stdpp Require Import base option list.

Local Open Scope string_scope.
Local Open Scope Z_scope.
Local Open Scope list_scope.

(* ===================================================================== *)
(** * Python values and builtins *)
(* ===================================================================== *)

Module Py.

(** The exception classes that occur; all derive from [Exception].
    [HouError] stands for the host's family (hou.Error and its subclasses
    such as hou.OperationFailed), named by its class name. *)
Inductive exc_class :=
| ValueError
| TypeError
| OverflowError
| AttributeError
| HouError (name : string).

(** An exception instance: its class and [str(e)]. *)
Record exc := Exc { exc_cls : exc_class; exc_str : string }.

(** What [autosave_interval] may hold: the code initialises it with a float
    and converts with [float(...)], so ints, strings and None matter. *)
Inductive value :=
| VFloat (f : float)
| VInt (z : Z)
| VStr (s : string)
| VNone.

(** ** Character classes of numeric literals

    A character of a [string] stands for the code point of the same number
    (below 256).  Among these the decimal digits are 0-9 and the whitespace
    is tab to carriage return, the four separators 28-31, the space, NEL
    (133) and the no-break space (160). *)

Inductive cclass := KSpace | KPlus | KMinus | KDigit | KUnder | KDot | KOther.

Definition classify (c : ascii) : cclass :=
  let n := nat_of_ascii c in
  if ((48 <=? n) && (n <=? 57))%nat then KDigit
  else if (n =? 95)%nat then KUnder
  else if (n =? 43)%nat then KPlus
  else if (n =? 45)%nat then KMinus
  else if (n =? 46)%nat then KDot
  else if (((9 <=? n) && (n <=? 13)) || ((28 <=? n) && (n <=? 32))
           || (n =? 133) || (n =? 160))%nat then KSpace
  else KOther.

Definition is_digit (c : ascii) : bool :=
  match classify c with KDigit => true | _ => false end.

Definition is_space (c : ascii) : bool :=
  match classify c with KSpace => true | _ => false end.

Definition digit_val (c : ascii) : Z := Z.of_nat (nat_of_ascii c) - 48.

(** Value of a string of digits, most significant first; other characters
    are skipped (the callers have checked the shape). *)
Fixpoint digits_val (acc : Z) (s : string) : Z :=
  match s with
  | EmptyString => acc
  | String c r =>
      digits_val (if is_digit c then 10 * acc + digit_val c else acc) r
  end.

Fixpoint has_minus (s : string) : bool :=
  match s with
  | EmptyString => false
  | String c r =>
      match classify c with KMinus => true | _ => has_minus r end
  end.

(** ** [str * int]: repetition *)

Fixpoint str_repeat (n : nat) (s : string) : string :=
  match n with
  | O => EmptyString
  | S k => (s ++ str_repeat k s)%string
  end.

Definition str_mul (s : string) (n : Z) : string := str_repeat (Z.to_nat n) s.

(** ** [int(str)], base 10

    Optional surrounding whitespace, an optional sign, then digits where
    single underscores may stand between digits.  The scan is the automaton
    of the C loop: one state per position in that shape. *)

Inductive istate := IStart | ISigned | IDigits | IUnder | ITrail | IFail.

Definition istep (q : istate) (k : cclass) : istate :=
  match q, k with
  | IStart, KSpace => IStart
  | IStart, (KPlus | KMinus) => ISigned
  | IStart, KDigit => IDigits
  | ISigned, KDigit => IDigits
  | IDigits, KDigit => IDigits
  | IDigits, KUnder => IUnder
  | IDigits, KSpace => ITrail
  | IUnder, KDigit => IDigits
  | ITrail, KSpace => ITrail
  | _, _ => IFail
  end.

Fixpoint irun (q : istate) (s : string) : istate :=
  match s with
  | EmptyString => q
  | String c r => irun (istep q (classify c)) r
  end.

Definition iaccepting (q : istate) : bool :=
  match q with IDigits | ITrail => true | _ => false end.

Definition int_of_str (s : string) : option Z :=
  if iaccepting (irun IStart s)
  then Some (let v := digits_val 0 s in if has_minus s then - v else v)
  else None.

(** ** [float(str)]

    Surrounding whitespace is stripped; then an optional sign and either a
    decimal number ([digitpart] with optional fraction and exponent) or one
    of inf, infinity, nan in any letter case. *)

Fixpoint lstrip (s : string) : string :=
  match s with
  | EmptyString => EmptyString
  | String c r => if is_space c then lstrip r else s
  end.

Fixpoint rstrip (s : string) : string :=
  match s with
  | EmptyString => EmptyString
  | String c r =>
      match rstrip r with
      | EmptyString => if is_space c then EmptyString else String c EmptyString
      | r' => String c r'
      end
  end.

Definition strip (s : string) : string := rstrip (lstrip s).

(** After a digit: [(["_"] digit)*].  Returns the digits read so far and
    the unread rest. *)
Fixpoint scan_digits (acc : string) (s : string) : string * string :=
  match s with
  | EmptyString => (acc, EmptyString)
  | String c r =>
      match classify c with
      | KDigit => scan_digits (acc ++ String c EmptyString)%string r
      | KUnder =>
          match r with
          | String d r' =>
              if is_digit d
              then scan_digits (acc ++ String d EmptyString)%string r'
              else (acc, s)
          | EmptyString => (acc, s)
          end
      | _ => (acc, s)
      end
  end.

(** [digitpart ::= digit (["_"] digit)*], when the string starts with one. *)
Definition digitpart (s : string) : option (string * string) :=
  match s with
  | String c r => if is_digit c then Some (scan_digits (String c EmptyString) r) else None
  | EmptyString => None
  end.

Definition take_sign (s : string) : bool * string :=
  match s with
  | String c r =>
      match classify c with
      | KPlus => (false, r)
      | KMinus => (true, r)
      | _ => (false, s)
      end
  | EmptyString => (false, s)
  end.

Definition is_exp_char (c : ascii) : bool :=
  (nat_of_ascii c =? 101)%nat || (nat_of_ascii c =? 69)%nat.

(** Exponent part: absent (exponent 0), or [e|E [sign] digitpart]. *)
Definition exponent (s : string) : option (Z * string) :=
  match s with
  | String c r =>
      if is_exp_char c then
        let (neg, r1) := take_sign r in
        match digitpart r1 with
        | Some (ds, rest) =>
            let v := digits_val 0 ds in Some (if neg then - v else v, rest)
        | None => None
        end
      else Some (0, s)
  | EmptyString => Some (0, s)
  end.

(** A decimal number that spans the whole string: its digits as an integer
    and the power of ten to scale it with. *)
Definition decimal (s : string) : option (Z * Z) :=
  let (ip, r1) := match digitpart s with
                  | Some p => p
                  | None => (EmptyString, s)
                  end in
  let (fp, r2) := match r1 with
                  | String c t =>
                      match classify c with
                      | KDot => match digitpart t with
                                | Some p => p
                                | None => (EmptyString, t)
                                end
                      | _ => (EmptyString, r1)
                      end
                  | EmptyString => (EmptyString, r1)
                  end in
  match (ip ++ fp)%string with
  | EmptyString => None
  | ds =>
      match exponent r2 with
      | Some (e, EmptyString) =>
          Some (digits_val 0 ds, e - Z.of_nat (String.length fp))
      | _ => None
      end
  end.

Definition lower (c : ascii) : ascii :=
  let n := nat_of_ascii c in
  if ((65 <=? n) && (n <=? 90))%nat then ascii_of_nat (n + 32) else c.

Fixpoint lowercase (s : string) : string :=
  match s with
  | EmptyString => EmptyString
  | String c r => String (lower c) (lowercase r)
  end.

(** Integer to binary64, round to nearest even. *)
Definition float_of_Z (z : Z) : float :=
  SF2Prim (binary_normalize prec emax z 0 false).

(** [m * 10^e] for [m >= 0], correctly rounded: for a negative exponent the
    quotient is taken with more bits than the format keeps and the
    remainder folded into a sticky bit. *)
Definition float_of_decimal (neg : bool) (m e : Z) : float :=
  let f :=
    if m =? 0 then zero
    else if 0 <=? e then float_of_Z (m * 10 ^ e)
    else
      let d := 10 ^ (- e) in
      let k := Z.max 0 (64 + Z.log2 d - Z.log2 m) in
      let n := Z.shiftl m k in
      let sticky := if n mod d =? 0 then 0 else 1 in
      SF2Prim (binary_normalize prec emax (2 * (n / d) + sticky) (- k - 1) false)
  in if neg then (- f)%float else f.

Definition float_of_str (s : string) : option float :=
  let (neg, body) := take_sign (strip s) in
  match decimal body with
  | Some (m, e) => Some (float_of_decimal neg m e)
  | None =>
      let w := lowercase body in
      if (w =? "inf")%string || (w =? "infinity")%string
      then Some (if neg then neg_infinity else infinity)
      else if (w =? "nan")%string then Some nan
      else None
  end.

(** ** The builtins as the code applies them *)

(** [float(v)] *)
Definition float_ (v : value) : exc + float :=
  match v with
  | VFloat f => inr f
  | VInt z =>
      let f := float_of_Z z in
      if is_infinity f
      then inl (Exc OverflowError "int too large to convert to float")
      else inr f
  | VStr s =>
      match float_of_str s with
      | Some f => inr f
      | None => inl (Exc ValueError "could not convert string to float")
      end
  | VNone => inl (Exc TypeError "float() argument must be a string or a number")
  end.

(** [v * n] for an int literal [n] *)
Definition mul_int (v : value) (n : Z) : exc + value :=
  match v with
  | VFloat f => inr (VFloat (f * float_of_Z n)%float)
  | VInt z => inr (VInt (z * n))
  | VStr s => inr (VStr (str_mul s n))
  | VNone => inl (Exc TypeError "unsupported operand type(s) for *")
  end.

(** Truncation of a float towards zero; none for inf and nan. *)
Definition trunc (f : float) : option Z :=
  match Prim2SF f with
  | S754_zero _ => Some 0
  | S754_finite s m e =>
      let a := if 0 <=? e then Z.shiftl (Zpos m) e else Z.shiftr (Zpos m) (- e) in
      Some (if s then - a else a)
  | S754_infinity _ | S754_nan => None
  end.

(** [int(v)] *)
Definition int_ (v : value) : exc + Z :=
  match v with
  | VFloat f =>
      match trunc f with
      | Some z => inr z
      | None =>
          if is_nan f
          then inl (Exc ValueError "cannot convert float NaN to integer")
          else inl (Exc OverflowError "cannot convert float infinity to integer")
      end
  | VInt z => inr z
  | VStr s =>
      match int_of_str s with
      | Some z => inr z
      | None => inl (Exc ValueError "invalid literal for int() with base 10")
      end
  | VNone => inl (Exc TypeError "int() argument must be a string or a number")
  end.

End Py.

Arguments Py.float_ : simpl never.
Arguments Py.mul_int : simpl never.
Arguments Py.int_ : simpl never.

(* ===================================================================== *)
(** * The world of the manager: Qt objects, host, trace *)
(* ===================================================================== *)

(** The bound methods the script hands to Qt signals and to the host. *)
Inductive slot := SlotCheckAutosave | SlotAutoSaveDone | SlotSceneEventCallback.

Inductive button_role := AcceptRole | RejectRole | YesRole | NoRole.

(** A [QTimer]: what the script sets and reads of it. *)
Record QTimer := mkTimer {
  tm_single_shot : bool;
  tm_active : bool;
  tm_interval : Z;
  tm_timeout : list slot
}.

(** A [QMessageBox].  Buttons are named by their position in [mb_buttons]. *)
Record QMessageBox := mkMsg {
  mb_title : string;
  mb_text : string;
  mb_buttons : list (string * button_role);
  mb_default : option nat;
  mb_escape : option nat;
  mb_finished : list slot;
  mb_modal : bool;
  mb_visible : bool;
  mb_clicked : option nat
}.

(** hou.hipFileEventType *)
Inductive hipFileEventType :=
| BeforeClear | AfterClear | BeforeLoad | AfterLoad
| BeforeMerge | AfterMerge | BeforeSave | AfterSave.

Definition hipFileEventType_eqb (a b : hipFileEventType) : bool :=
  match a, b with
  | BeforeClear, BeforeClear | AfterClear, AfterClear
  | BeforeLoad, BeforeLoad | AfterLoad, AfterLoad
  | BeforeMerge, BeforeMerge | AfterMerge, AfterMerge
  | BeforeSave, BeforeSave | AfterSave, AfterSave => true
  | _, _ => false
  end.

(** The host as the script observes it: the reply to an hscript command
    (output and error text), the outcome of hou.hipFile.save() (an exception
    or none), the thread of the QApplication instance (if there is one) and
    the thread the script runs in. *)
Record Host := mkHost {
  hscript : string -> string * string;
  save_failure : option Py.exc;
  qapp_thread : option nat;
  current_thread : nat
}.

Inductive level := DEBUG | INFO | WARNING | ERROR.

(** Pieces of a log message: text and the values formatted into it. *)
Inductive frag :=
| FStr (s : string)
| FBool (b : bool)
| FVal (v : Py.value)
| FExc (e : Py.exc).

(** Every call that leaves the manager, in the order made. *)
Inductive call :=
| Log (l : level) (msg : list frag)
| HouHscript (cmd : string)
| HouSave
| HouAddEventCallback (s : slot)
| TimerNew (t : nat)
| TimerStop (t : nat)
| TimerStart (t : nat) (msec : Z)
| MsgNew (m : nat)
| MsgShow (m : nat)
| MsgClose (m : nat).

(** The attributes of the [AutosaveManager] instance, the Qt objects created
    so far (a reference is a position in [timers] or [msgs]; nothing is ever
    freed), the callbacks registered with the host, the host, the trace. *)
Record state := mkState {
  autosave_session_mute : bool;
  autosave_timer : option nat;
  autosave_msg : option nat;
  autosave_interval : Py.value;
  timers : list QTimer;
  msgs : list QMessageBox;
  callbacks : list slot;
  host : Host;
  trace : list call
}.

Definition set_mute (b : bool) (st : state) : state :=
  mkState b (autosave_timer st) (autosave_msg st) (autosave_interval st)
          (timers st) (msgs st) (callbacks st) (host st) (trace st).
Definition set_timer (t : option nat) (st : state) : state :=
  mkState (autosave_session_mute st) t (autosave_msg st) (autosave_interval st)
          (timers st) (msgs st) (callbacks st) (host st) (trace st).
Definition set_msg (m : option nat) (st : state) : state :=
  mkState (autosave_session_mute st) (autosave_timer st) m (autosave_interval st)
          (timers st) (msgs st) (callbacks st) (host st) (trace st).
Definition set_interval (v : Py.value) (st : state) : state :=
  mkState (autosave_session_mute st) (autosave_timer st) (autosave_msg st) v
          (timers st) (msgs st) (callbacks st) (host st) (trace st).
Definition set_timers (l : list QTimer) (st : state) : state :=
  mkState (autosave_session_mute st) (autosave_timer st) (autosave_msg st)
          (autosave_interval st) l (msgs st) (callbacks st) (host st) (trace st).
Definition set_msgs (l : list QMessageBox) (st : state) : state :=
  mkState (autosave_session_mute st) (autosave_timer st) (autosave_msg st)
          (autosave_interval st) (timers st) l (callbacks st) (host st) (trace st).
Definition set_callbacks (l : list slot) (st : state) : state :=
  mkState (autosave_session_mute st) (autosave_timer st) (autosave_msg st)
          (autosave_interval st) (timers st) (msgs st) l (host st) (trace st).
Definition set_host (h : Host) (st : state) : state :=
  mkState (autosave_session_mute st) (autosave_timer st) (autosave_msg st)
          (autosave_interval st) (timers st) (msgs st) (callbacks st) h (trace st).
Definition set_trace (l : list call) (st : state) : state :=
  mkState (autosave_session_mute st) (autosave_timer st) (autosave_msg st)
          (autosave_interval st) (timers st) (msgs st) (callbacks st) (host st) l.

(* ===================================================================== *)
(** * State and exceptions *)
(* ===================================================================== *)

Inductive result (A : Type) :=
| Ret (a : A)
| Raise (e : Py.exc).
Arguments Ret {A} a.
Arguments Raise {A} e.

(** A method body: it runs on a state and either returns or raises; the
    state it leaves is kept in both cases. *)
Definition M (A : Type) : Type := state -> result A * state.

Definition ret {A} (a : A) : M A := fun st => (Ret a, st).

Definition raise {A} (e : Py.exc) : M A := fun st => (Raise e, st).

Definition bind {A B} (m : M A) (k : A -> M B) : M B :=
  fun st =>
    match m st with
    | (Ret a, st') => k a st'
    | (Raise e, st') => (Raise e, st')
    end.

Definition gets {A} (f : state -> A) : M A := fun st => (Ret (f st), st).

Definition modify (f : state -> state) : M unit := fun st => (Ret tt, f st).

(** [try: m except <classes>: h] *)
Definition try_except {A} (m : M A) (handles : Py.exc_class -> bool)
    (h : Py.exc -> M A) : M A :=
  fun st =>
    match m st with
    | (Ret a, st') => (Ret a, st')
    | (Raise e, st') =>
        if handles (Py.exc_cls e) then h e st' else (Raise e, st')
    end.

(** The result of a builtin, as a step of a method. *)
Definition lift {A} (r : Py.exc + A) : M A :=
  match r with
  | inl e => raise e
  | inr a => ret a
  end.

Declare Scope method_scope.
Delimit Scope method_scope with method.
Notation "x <- c1 ;; c2" := (bind c1 (fun x => c2))
  (at level 100, c1 at next level, right associativity) : method_scope.
Notation "c1 ;; c2" := (bind c1 (fun _ => c2))
  (at level 100, right associativity) : method_scope.
Local Open Scope method_scope.

Definition emit (c : call) : M unit :=
  modify (fun st => set_trace (trace st ++ [c]) st).

(** [except Exception]: every class of the model derives from it. *)
Definition is_Exception (c : Py.exc_class) : bool := true.

Definition is_ValueError (c : Py.exc_class) : bool :=
  match c with Py.ValueError => true | _ => false end.

(** ** The logger *)

Definition logger_debug (msg : list frag) : M unit := emit (Log DEBUG msg).
Definition logger_info (msg : list frag) : M unit := emit (Log INFO msg).
Definition logger_warning (msg : list frag) : M unit := emit (Log WARNING msg).
Definition logger_error (msg : list frag) : M unit := emit (Log ERROR msg).

(** ** hou *)

Definition hou_hscript (cmd : string) : M (string * string) :=
  emit (HouHscript cmd) ;;
  gets (fun st => hscript (host st) cmd).

Definition hou_hipFile_save : M unit :=
  emit HouSave ;;
  f <- gets (fun st => save_failure (host st)) ;;
  match f with
  | Some e => raise e
  | None => ret tt
  end.

Definition hou_hipFile_addEventCallback (s : slot) : M unit :=
  emit (HouAddEventCallback s) ;;
  modify (fun st => set_callbacks (callbacks st ++ [s]) st).

(** ** Qt *)

(** [QApplication.instance()]: the thread of the instance, if any. *)
Definition QApplication_instance : M (option nat) :=
  gets (fun st => qapp_thread (host st)).

Definition QThread_currentThread : M nat :=
  gets (fun st => current_thread (host st)).

Definition upd_timer (t : nat) (f : QTimer -> QTimer) : M unit :=
  modify (fun st => set_timers (alter f t (timers st)) st).

Definition upd_msg (m : nat) (f : QMessageBox -> QMessageBox) : M unit :=
  modify (fun st => set_msgs (alter f m (msgs st)) st).

(** [QTimer()]: inactive, repeating, nothing connected. *)
Definition QTimer_new : M nat :=
  t <- gets (fun st => length (timers st)) ;;
  modify (fun st => set_timers (timers st ++ [mkTimer false false 0 []]) st) ;;
  emit (TimerNew t) ;;
  ret t.

Definition QTimer_isActive (t : nat) : M bool :=
  gets (fun st => match timers st !! t with
                  | Some tm => tm_active tm
                  | None => false
                  end).

Definition stop_timer (tm : QTimer) : QTimer :=
  mkTimer (tm_single_shot tm) false (tm_interval tm) (tm_timeout tm).

Definition QTimer_stop (t : nat) : M unit :=
  emit (TimerStop t) ;;
  upd_timer t stop_timer.

Definition QTimer_setSingleShot (t : nat) (b : bool) : M unit :=
  upd_timer t (fun tm => mkTimer b (tm_active tm) (tm_interval tm) (tm_timeout tm)).

Definition QTimer_timeout_connect (t : nat) (s : slot) : M unit :=
  upd_timer t (fun tm => mkTimer (tm_single_shot tm) (tm_active tm) (tm_interval tm)
                                 (tm_timeout tm ++ [s])).

Definition QTimer_start (t : nat) (msec : Z) : M unit :=
  emit (TimerStart t msec) ;;
  upd_timer t (fun tm => mkTimer (tm_single_shot tm) true msec (tm_timeout tm)).

(** [QMessageBox()]: hidden, modal until told otherwise, no buttons. *)
Definition QMessageBox_new : M nat :=
  m <- gets (fun st => length (msgs st)) ;;
  modify (fun st =>
            set_msgs (msgs st ++ [mkMsg "" "" [] None None [] true false None]) st) ;;
  emit (MsgNew m) ;;
  ret m.

Definition QMessageBox_setWindowTitle (m : nat) (s : string) : M unit :=
  upd_msg m (fun b => mkMsg s (mb_text b) (mb_buttons b) (mb_default b) (mb_escape b)
                            (mb_finished b) (mb_modal b) (mb_visible b) (mb_clicked b)).

Definition QMessageBox_setText (m : nat) (s : string) : M unit :=
  upd_msg m (fun b => mkMsg (mb_title b) s (mb_buttons b) (mb_default b) (mb_escape b)
                            (mb_finished b) (mb_modal b) (mb_visible b) (mb_clicked b)).

(** [addButton(text, role)] returns the new button. *)
Definition QMessageBox_addButton (m : nat) (s : string) (r : button_role) : M nat :=
  i <- gets (fun st => match msgs st !! m with
                       | Some b => length (mb_buttons b)
                       | None => O
                       end) ;;
  upd_msg m (fun b => mkMsg (mb_title b) (mb_text b) (mb_buttons b ++ [(s, r)])
                            (mb_default b) (mb_escape b)
                            (mb_finished b) (mb_modal b) (mb_visible b) (mb_clicked b)) ;;
  ret i.

Definition QMessageBox_setDefaultButton (m : nat) (i : nat) : M unit :=
  upd_msg m (fun b => mkMsg (mb_title b) (mb_text b) (mb_buttons b) (Some i) (mb_escape b)
                            (mb_finished b) (mb_modal b) (mb_visible b) (mb_clicked b)).

Definition QMessageBox_setEscapeButton (m : nat) (i : nat) : M unit :=
  upd_msg m (fun b => mkMsg (mb_title b) (mb_text b) (mb_buttons b) (mb_default b) (Some i)
                            (mb_finished b) (mb_modal b) (mb_visible b) (mb_clicked b)).

Definition QMessageBox_finished_connect (m : nat) (s : slot) : M unit :=
  upd_msg m (fun b => mkMsg (mb_title b) (mb_text b) (mb_buttons b) (mb_default b)
                            (mb_escape b) (mb_finished b ++ [s]) (mb_modal b)
                            (mb_visible b) (mb_clicked b)).

Definition QMessageBox_setModal (m : nat) (v : bool) : M unit :=
  upd_msg m (fun b => mkMsg (mb_title b) (mb_text b) (mb_buttons b) (mb_default b)
                            (mb_escape b) (mb_finished b) v (mb_visible b) (mb_clicked b)).

Definition set_visible (v : bool) (b : QMessageBox) : QMessageBox :=
  mkMsg (mb_title b) (mb_text b) (mb_buttons b) (mb_default b) (mb_escape b)
        (mb_finished b) (mb_modal b) v (mb_clicked b).

Definition QMessageBox_show (m : nat) : M unit :=
  emit (MsgShow m) ;; upd_msg m (set_visible true).

Definition QMessageBox_close (m : nat) : M unit :=
  emit (MsgClose m) ;; upd_msg m (set_visible false).

(** [clickedButton()]: the button as (box, position), or None. *)
Definition QMessageBox_clickedButton (m : nat) : M (option (nat * nat)) :=
  gets (fun st => match msgs st !! m with
                  | Some b => match mb_clicked b with
                              | Some i => Some (m, i)
                              | None => None
                              end
                  | None => None
                  end).

(** [button.text()] *)
Definition button_text (b : nat * nat) : M string :=
  gets (fun st => match msgs st !! fst b with
                  | Some mb => match mb_buttons mb !! snd b with
                               | Some (s, _) => s
                               | None => ""
                               end
                  | None => ""
                  end).

(* ===================================================================== *)
(** * AutosaveManager *)
(* ===================================================================== *)

Definition newline : string := String (ascii_of_nat 10) EmptyString.

(** The reply of the host to [autosave] when its autosave is on. *)
Definition autosave_on : string := ("autosave on" ++ newline)%string.

Definition save_label : string := "Save".
Definition no_label : string := "No".
Definition mute_label : string := "No, don't ask again in this session".

(** [__init__]: the logger is set up, the attributes get their defaults;
    no Qt object exists yet and nothing is registered with the host. *)
Definition init (h : Host) : state :=
  mkState false None None (Py.VFloat 0x1.999999999999ap-3%float)
          [] [] [] h
          [Log DEBUG [FStr "Autosave plugin loaded"]].

Definition autosave_enabled : M bool :=
  r <- hou_hscript "autosave" ;;
  ret (fst r =? autosave_on)%string.

Definition save_scene : M bool :=
  try_except
    (hou_hipFile_save ;;
     logger_info [FStr "Scene saved successfully"] ;;
     ret true)
    is_Exception
    (fun e =>
       logger_error [FStr "Error saving scene: "; FExc e] ;;
       ret false).

Definition should_autosave_timer_run : M bool :=
  mute <- gets autosave_session_mute ;;
  if mute then
    logger_debug [FStr "Autosave session is muted"] ;;
    ret false
  else
    qapp <- QApplication_instance ;;
    match qapp with
    | Some th =>
        cur <- QThread_currentThread ;;
        if (th =? cur)%nat then ret true else ret false
    | None => ret false
    end.

Definition is_autosave_timer_active : M bool :=
  t <- gets autosave_timer ;;
  match t with
  | Some t => QTimer_isActive t
  | None => ret false
  end.

(** An attribute of [None]: what [self.autosave_timer.stop()] would raise
    were the attribute unset. *)
Definition none_attr {A} (name : string) : M A :=
  raise (Py.Exc Py.AttributeError
                ("'NoneType' object has no attribute '" ++ name ++ "'")%string).

Definition start_autosave_timer (quit : bool) : M unit :=
  a <- is_autosave_timer_active ;;
  (if a then
     t <- gets autosave_timer ;;
     match t with
     | Some t => QTimer_stop t
     | None => none_attr "stop"
     end ;;
     m <- gets autosave_msg ;;
     match m with
     | Some m => QMessageBox_close m
     | None => ret tt
     end
   else ret tt) ;;
  if quit then
    logger_info [FStr "Quitting autosave timer"]
  else
    run <- should_autosave_timer_run ;;
    if negb run then ret tt
    else
      try_except
        (v <- gets autosave_interval ;;
         f <- lift (Py.float_ v) ;;
         modify (set_interval (Py.VFloat f)))
        is_ValueError
        (fun _ =>
           v <- gets autosave_interval ;;
           logger_warning [FStr "Invalid autosave interval: "; FVal v]) ;;
      t <- QTimer_new ;;
      modify (set_timer (Some t)) ;;
      QTimer_setSingleShot t true ;;
      QTimer_timeout_connect t SlotCheckAutosave ;;
      v <- gets autosave_interval ;;
      x <- lift (Py.mul_int v 60) ;;
      y <- lift (Py.mul_int x 1000) ;;
      msec <- lift (Py.int_ y) ;;
      QTimer_start t msec ;;
      v <- gets autosave_interval ;;
      logger_debug [FStr "Started autosave timer: "; FVal v; FStr "min"].

Definition check_autosave : M unit :=
  logger_debug [FStr "Autosave timer triggered"] ;;
  e <- autosave_enabled ;;
  logger_debug [FStr "Autosave enabled: "; FBool e] ;;
  e <- autosave_enabled ;;
  if negb e then
    m <- QMessageBox_new ;;
    modify (set_msg (Some m)) ;;
    QMessageBox_setWindowTitle m "Autosave" ;;
    QMessageBox_setText m "Autosave is disabled. Would you like to save now?" ;;
    QMessageBox_addButton m save_label YesRole ;;
    b_no <- QMessageBox_addButton m no_label YesRole ;;
    QMessageBox_addButton m mute_label YesRole ;;
    QMessageBox_setDefaultButton m b_no ;;
    QMessageBox_setEscapeButton m b_no ;;
    QMessageBox_finished_connect m SlotAutoSaveDone ;;
    QMessageBox_setModal m false ;;
    QMessageBox_show m
  else ret tt.

Definition auto_save_done (action : Z) : M unit :=
  m <- gets autosave_msg ;;
  button <- match m with
            | Some m => QMessageBox_clickedButton m
            | None => ret None
            end ;;
  match button with
  | Some b =>
      s <- button_text b ;;
      if (s =? save_label)%string then
        save_scene ;;
        start_autosave_timer false
      else
        s <- button_text b ;;
        if (s =? mute_label)%string then
          modify (set_mute true) ;;
          start_autosave_timer true
        else start_autosave_timer false
  | None => start_autosave_timer false
  end.

Definition on_scene_file_saved : M unit :=
  run <- should_autosave_timer_run ;;
  if run then start_autosave_timer false else ret tt.

Definition scene_event_callback (event_type : hipFileEventType) : M unit :=
  if hipFileEventType_eqb event_type AfterSave
  then on_scene_file_saved
  else ret tt.

Definition setup : M unit :=
  run <- should_autosave_timer_run ;;
  (if run then start_autosave_timer false else ret tt) ;;
  hou_hipFile_addEventCallback SlotSceneEventCallback ;;
  logger_debug [FStr "Added Houdini hipFile event callback"].

(* ===================================================================== *)
(** * The session: what Qt and the host call, and when *)
(* ===================================================================== *)

(** What a signal carries to its slots. *)
Inductive payload :=
| PNone
| PInt (z : Z)
| PEvent (e : hipFileEventType).

(** A connected slot, called with the argument of the signal.
    [auto_save_done] has the default [action = 2]; [scene_event_callback]
    has no default for its argument. *)
Definition call_slot (s : slot) (p : payload) : M unit :=
  match s, p with
  | SlotCheckAutosave, _ => check_autosave
  | SlotAutoSaveDone, PInt z => auto_save_done z
  | SlotAutoSaveDone, _ => auto_save_done 2
  | SlotSceneEventCallback, PEvent e => scene_event_callback e
  | SlotSceneEventCallback, _ =>
      raise (Py.Exc Py.TypeError "missing 1 required positional argument: 'event_type'")
  end.

(** The slots of a signal are called in the order connected.  An exception
    that escapes a slot is reported by the event loop and the next slot still
    runs: the session only keeps the state. *)
Fixpoint call_slots (l : list slot) (p : payload) (st : state) : state :=
  match l with
  | [] => st
  | s :: r => call_slots r p (snd (call_slot s p st))
  end.

(** How the user answers a prompt: one of its buttons, or closing it. *)
Inductive answer :=
| Click (i : nat)
| Dismiss.

Inductive event :=
| Setup                                   (* the module level: [setup()] *)
| TimerExpires (t : nat)                  (* the interval of timer [t] ran out *)
| Answer (m : nat) (a : answer)           (* the user answers prompt [m] *)
| SceneEvent (e : hipFileEventType)       (* the host reports a hip file event *)
| SetInterval (v : Py.value)              (* [autosave_interval] assigned from outside *)
| HostChange (h : Host).                  (* the host's settings change *)

Definition expire (tm : QTimer) : QTimer :=
  mkTimer (tm_single_shot tm) (negb (tm_single_shot tm)) (tm_interval tm) (tm_timeout tm).

Definition answered (i : option nat) (b : QMessageBox) : QMessageBox :=
  mkMsg (mb_title b) (mb_text b) (mb_buttons b) (mb_default b) (mb_escape b)
        (mb_finished b) (mb_modal b) false i.

(** The button Qt records for an answer: the clicked one, or the escape
    button when the prompt is closed. *)
Definition chosen (b : QMessageBox) (a : answer) : option nat :=
  match a with
  | Click i => if (i <? length (mb_buttons b))%nat then Some i else None
  | Dismiss => mb_escape b
  end.

(** The state in which Qt calls [auto_save_done]: button [i] of prompt [m]
    was clicked and the prompt is hidden. *)
Definition pressed (m i : nat) (st : state) : state :=
  set_msgs (alter (answered (Some i)) m (msgs st)) st.

(** One step of the event loop; [None] when the event cannot happen in this
    state (a timer that is not running does not expire, a hidden prompt is
    not answered, a button that does not exist is not clicked). *)
Definition step (ev : event) (st : state) : option state :=
  match ev with
  | Setup => Some (snd (setup st))
  | TimerExpires t =>
      match timers st !! t with
      | Some tm =>
          if tm_active tm
          then Some (call_slots (tm_timeout tm) PNone
                                (set_timers (alter expire t (timers st)) st))
          else None
      | None => None
      end
  | Answer m a =>
      match msgs st !! m with
      | Some b =>
          match mb_visible b, chosen b a with
          | true, Some i =>
              Some (call_slots (mb_finished b) (PInt (Z.of_nat i)) (pressed m i st))
          | _, _ => None
          end
      | None => None
      end
  | SceneEvent e => Some (call_slots (callbacks st) (PEvent e) st)
  | SetInterval v => Some (set_interval v st)
  | HostChange h => Some (set_host h st)
  end.

Fixpoint steps (evs : list event) (st : state) : option state :=
  match evs with
  | [] => Some st
  | ev :: r =>
      match step ev st with
      | Some st' => steps r st'
      | None => None
      end
  end.

(** The states a session can be in. *)
Inductive reachable : state -> Prop :=
| reach_init h : reachable (init h)
| reach_step st ev st' : reachable st -> step ev st = Some st' -> reachable st'.

(* ===================================================================== *)
(** * Observations and invariants *)
(* ===================================================================== *)

(** ** Reading a state *)

(** What the host answers to [autosave], as [autosave_enabled] reads it. *)
Definition host_autosave_on (st : state) : bool :=
  (fst (hscript (host st) "autosave") =? autosave_on)%string.

(** What [should_autosave_timer_run] answers: not muted, and called from the
    thread of the QApplication instance. *)
Definition should_run (st : state) : bool :=
  if autosave_session_mute st then false
  else match qapp_thread (host st) with
       | Some th => (th =? current_thread (host st))%nat
       | None => false
       end.

(** What [is_autosave_timer_active] answers. *)
Definition timer_is_active (st : state) : bool :=
  match autosave_timer st with
  | Some t => match timers st !! t with
              | Some tm => tm_active tm
              | None => false
              end
  | None => false
  end.

(** What [auto_save_done] reads: [self.autosave_msg.clickedButton().text()],
    or none when there is no prompt or no clicked button. *)
Definition clicked_text (st : state) : option string :=
  match autosave_msg st with
  | Some m =>
      match msgs st !! m with
      | Some mb =>
          match mb_clicked mb with
          | Some i => Some match mb_buttons mb !! i with
                           | Some (s, _) => s
                           | None => ""
                           end
          | None => None
          end
      | None => None
      end
  | None => None
  end.

(** [int(self.autosave_interval * 60 * 1000)] for a float interval. *)
Definition interval_msec (f : float) : Py.exc + Z :=
  Py.int_ (Py.VFloat (f * Py.float_of_Z 60 * Py.float_of_Z 1000)%float).

(** The prompt [check_autosave] builds. *)
Definition prompt : QMessageBox :=
  mkMsg "Autosave" "Autosave is disabled. Would you like to save now?"
        [(save_label, YesRole); (no_label, YesRole); (mute_label, YesRole)]
        (Some 1%nat) (Some 1%nat) [SlotAutoSaveDone] false true None.

(** ** Reading the trace *)

(** The part of the trace of [st'] added since [st]. *)
Definition new_calls (st st' : state) : list call :=
  drop (length (trace st)) (trace st').

Definition is_save (c : call) : bool :=
  match c with HouSave => true | _ => false end.
Definition is_timer_start (c : call) : bool :=
  match c with TimerStart _ _ => true | _ => false end.
Definition is_msg_show (c : call) : bool :=
  match c with MsgShow _ => true | _ => false end.
Definition is_msg_new (c : call) : bool :=
  match c with MsgNew _ => true | _ => false end.

(** A call that makes a timer run or a prompt appear. *)
Definition wakes (c : call) : bool := is_timer_start c || is_msg_show c.

(** Neither a timer start nor a prompt. *)
Definition quiet (c : call) : bool := negb (wakes c).

Definition no_save (c : call) : bool := negb (is_save c).

Definition no_start (c : call) : bool := negb (is_timer_start c).

Definition no_stop (c : call) : bool :=
  match c with
  | TimerStop _ | MsgClose _ => false
  | _ => true
  end.

(** The only call of the trace that persists anything. *)
Definition persists (c : call) : bool :=
  match c with
  | HouSave => true
  | Log _ _ | HouHscript _ | HouAddEventCallback _
  | TimerNew _ | TimerStop _ | TimerStart _ _
  | MsgNew _ | MsgShow _ | MsgClose _ => false
  end.

Definition saves (l : list call) : nat := length (List.filter is_save l).

(** [st'] continues the trace of [st] with calls that all satisfy [p]. *)
Definition extends (p : call -> bool) (st st' : state) : Prop :=
  exists l, trace st' = trace st ++ l /\ forallb p l = true.

(** What the first block of [start_autosave_timer] calls. *)
Definition stop_calls (st : state) : list call :=
  match autosave_timer st with
  | Some t =>
      if timer_is_active st
      then TimerStop t :: match autosave_msg st with
                          | Some m => [MsgClose m]
                          | None => []
                          end
      else []
  | None => []
  end.

(** ** Timers and the invariant of a session *)

(** The timers once the first block of [start_autosave_timer] has run. *)
Definition stopped_timers (st : state) : list QTimer :=
  match autosave_timer st with
  | Some t => if timer_is_active st then alter stop_timer t (timers st) else timers st
  | None => timers st
  end.

(** No timer is running. *)
Definition idle (st : state) : Prop :=
  forall t tm, timers st !! t = Some tm -> tm_active tm = false.

(** Only the timer the manager holds may be running, and a running timer is
    single-shot and wired to [check_autosave]. *)
Definition single_active (st : state) : Prop :=
  forall t tm, timers st !! t = Some tm -> tm_active tm = true ->
    autosave_timer st = Some t /\ tm_single_shot tm = true /\
    tm_timeout tm = [SlotCheckAutosave].


(** The signals are wired as the script wires them. *)
Definition wired (st : state) : Prop :=
  Forall (eq SlotSceneEventCallback) (callbacks st) /\
  forall m mb, msgs st !! m = Some mb -> mb_finished mb = [SlotAutoSaveDone].

(** The invariant of a session. *)
Definition wf (st : state) : Prop :=
  single_active st /\
  (autosave_session_mute st = true -> idle st) /\
  wired st.

(** Muted and well-formed: the state of a session after the mute button. *)
Definition muted (st : state) : Prop :=
  autosave_session_mute st = true /\ wf st.


(** ** The methods as operations *)

(** The methods of [AutosaveManager]. *)
Inductive method :=
| m_autosave_enabled
| m_save_scene
| m_should_autosave_timer_run
| m_is_autosave_timer_active
| m_start_autosave_timer (quit : bool)
| m_check_autosave
| m_auto_save_done (action : Z)
| m_on_scene_file_saved
| m_scene_event_callback (event_type : hipFileEventType)
| m_setup.

(** The state a method call leaves, whether it returns or raises. *)
Definition exec (m : method) (st : state) : state :=
  match m with
  | m_autosave_enabled => snd (autosave_enabled st)
  | m_save_scene => snd (save_scene st)
  | m_should_autosave_timer_run => snd (should_autosave_timer_run st)
  | m_is_autosave_timer_active => snd (is_autosave_timer_active st)
  | m_start_autosave_timer quit => snd (start_autosave_timer quit st)
  | m_check_autosave => snd (check_autosave st)
  | m_auto_save_done action => snd (auto_save_done action st)
  | m_on_scene_file_saved => snd (on_scene_file_saved st)
  | m_scene_event_callback e => snd (scene_event_callback e st)
  | m_setup => snd (setup st)
  end.

(** ** Sample sessions *)

Definition reply (out : string) : string -> string * string := fun _ => (out, "").

(** A host with its autosave off, the script running in the GUI thread. *)
Definition host_off : Host :=
  mkHost (reply ("autosave off" ++ newline)%string) None (Some 0%nat) 0%nat.

(** The same with autosave on. *)
Definition host_on : Host := mkHost (reply autosave_on) None (Some 0%nat) 0%nat.

(** A host whose save fails. *)
Definition host_readonly : Host :=
  mkHost (reply ("autosave off" ++ newline)%string)
         (Some (Py.Exc (Py.HouError "OperationFailed") "Unable to save"))
         (Some 0%nat) 0%nat.

Definition after (evs : list event) (st : state) : state :=
  match steps evs st with
  | Some st' => st'
  | None => st
  end.

(** The script was loaded and its timer runs. *)
Definition st_running : state := after [Setup] (init host_off).

(** The timer expired and the prompt is up. *)
Definition st_prompted : state := after [Setup; TimerExpires 0%nat] (init host_off).

(** The state of a running session whose interval was set to a text. *)
Definition st_text_interval : state :=
  after [Setup; SetInterval (Py.VStr "abc")] (init host_off).

(** ** The automaton of [int(str)], summarised *)

(** The effect of a whole string on the automaton of [int(str)]: the state
    it leads to from each state ([IFail] leads to [IFail]). *)
Record summary := mkSummary {
  from_start : Py.istate;
  from_signed : Py.istate;
  from_digits : Py.istate;
  from_under : Py.istate;
  from_trail : Py.istate
}.

Definition summary_of (s : string) : summary :=
  mkSummary (Py.irun Py.IStart s) (Py.irun Py.ISigned s) (Py.irun Py.IDigits s)
            (Py.irun Py.IUnder s) (Py.irun Py.ITrail s).

Definition leads (t : summary) (q : Py.istate) : Py.istate :=
  match q with
  | Py.IStart => from_start t
  | Py.ISigned => from_signed t
  | Py.IDigits => from_digits t
  | Py.IUnder => from_under t
  | Py.ITrail => from_trail t
  | Py.IFail => Py.IFail
  end.

(** The summary of [c :: s] from the class of [c] and the summary of [s]. *)
Definition after_class (k : Py.cclass) (t : summary) : summary :=
  mkSummary (leads t (Py.istep Py.IStart k)) (leads t (Py.istep Py.ISigned k))
            (leads t (Py.istep Py.IDigits k)) (leads t (Py.istep Py.IUnder k))
            (leads t (Py.istep Py.ITrail k)).

Definition istate_eqb (a b : Py.istate) : bool :=
  match a, b with
  | Py.IStart, Py.IStart | Py.ISigned, Py.ISigned | Py.IDigits, Py.IDigits
  | Py.IUnder, Py.IUnder | Py.ITrail, Py.ITrail | Py.IFail, Py.IFail => true
  | _, _ => false
  end.

Definition summary_eqb (a b : summary) : bool :=
  istate_eqb (from_start a) (from_start b) &&
  istate_eqb (from_signed a) (from_signed b) &&
  istate_eqb (from_digits a) (from_digits b) &&
  istate_eqb (from_under a) (from_under b) &&
  istate_eqb (from_trail a) (from_trail b).

Definition known (t : summary) (l : list summary) : bool :=
  existsb (summary_eqb t) l.

Definition classes : list Py.cclass :=
  [Py.KSpace; Py.KPlus; Py.KMinus; Py.KDigit; Py.KUnder; Py.KDot; Py.KOther].

Definition add_new (l : list summary) (t : summary) : list summary :=
  if known t l then l else l ++ [t].

(** One round of closing a set of summaries under [after_class]. *)
Definition grow (l : list summary) : list summary :=
  fold_left (fun acc t => fold_left (fun acc k => add_new acc (after_class k t)) classes acc)
            l l.

Fixpoint grow_n (n : nat) (l : list summary) : list summary :=
  match n with
  | O => l
  | S n => grow_n n (grow l)
  end.

(** The summaries of all strings. *)
Definition all_summaries : list summary :=
  Eval vm_compute in
    grow_n 8 [mkSummary Py.IStart Py.ISigned Py.IDigits Py.IUnder Py.ITrail].

(** [int(s * 60 * 1000)], on summaries. *)
Definition repeated_accepts (t : summary) : bool :=
  Py.iaccepting (Nat.iter 1000 (Nat.iter 60 (leads t)) Py.IStart).

(** All characters are digits or underscores. *)
Fixpoint plain (s : string) : bool :=
  match s with
  | EmptyString => true
  | String c r =>
      match Py.classify c with
      | Py.KDigit | Py.KUnder => plain r
      | _ => false
      end
  end.

(** ** How a method call ends *)



(** Neither the creation nor the show of a prompt. *)
Definition no_prompt (c : call) : bool := negb (is_msg_new c) && negb (is_msg_show c).

Definition is_timer_new (c : call) : bool :=
  match c with TimerNew _ => true | _ => false end.

(** The prompts once the first block of [start_autosave_timer] has run. *)
Definition closed_msgs (st : state) : list QMessageBox :=
  if timer_is_active st
  then match autosave_msg st with
       | Some m => alter (set_visible false) m (msgs st)
       | None => msgs st
       end
  else msgs st.

(** The log record of a muted [should_autosave_timer_run]. *)
Definition muted_log (st : state) : list call :=
  if autosave_session_mute st
  then [Log DEBUG [FStr "Autosave session is muted"]]
  else [].

(* ===================================================================== *)
(** * Proofs *)
(* ===================================================================== *)

(** ** Tactics: running a method on a symbolic state *)

(** Runs the primitives of a method body down to the state they compute.
    Reduction is by value, so that nested updates of the state are not
    duplicated. *)
Ltac run :=
  cbv beta iota zeta delta
    [logger_debug logger_info logger_warning logger_error
     hou_hscript hou_hipFile_save hou_hipFile_addEventCallback
     QApplication_instance QThread_currentThread
     QTimer_new QTimer_isActive QTimer_stop QTimer_setSingleShot
     QTimer_timeout_connect QTimer_start
     QMessageBox_new QMessageBox_setWindowTitle QMessageBox_setText
     QMessageBox_addButton QMessageBox_setDefaultButton
     QMessageBox_setEscapeButton QMessageBox_finished_connect
     QMessageBox_setModal QMessageBox_show QMessageBox_close
     QMessageBox_clickedButton button_text none_attr
     upd_timer upd_msg emit try_except lift bind ret raise gets modify
     is_Exception is_ValueError
     set_mute set_timer set_msg set_interval set_timers set_msgs
     set_callbacks set_host set_trace
     autosave_session_mute autosave_timer autosave_msg autosave_interval
     timers msgs callbacks host trace host_autosave_on new_calls negb];
  cbn [fst snd].

(** Names the attributes of a symbolic state, so that [run] computes on them. *)
Ltac open_state st :=
  destruct st as [mute tmr box itv tms mbs cbs h tr];
  cbn [autosave_session_mute autosave_timer autosave_msg autosave_interval
       timers msgs callbacks host trace] in *.

(** ** The methods as equations *)

Lemma new_calls_app st st' l :
  trace st' = trace st ++ l -> new_calls st st' = l.
Proof. intros E. unfold new_calls. rewrite E. apply drop_app_length. Qed.

Lemma autosave_enabled_eq st :
  autosave_enabled st =
    (Ret (host_autosave_on st), set_trace (trace st ++ [HouHscript "autosave"]) st).
Proof. reflexivity. Qed.

Lemma alter_app_new {A} (f : A -> A) (l : list A) (x : A) :
  alter f (length l) (l ++ [x]) = l ++ [f x].
Proof.
  rewrite <- (Nat.add_0_r (length l)). now rewrite alter_app_r.
Qed.

(** Normalises reads and updates of the object created last.  The record
    updates are reduced by value after each step, so that nested updates do
    not duplicate work. *)
Ltac reduce_objects :=
  cbv beta iota delta
      [mb_buttons mb_title mb_text mb_default mb_escape mb_finished mb_modal
       mb_visible mb_clicked tm_single_shot tm_active tm_interval tm_timeout
       set_visible stop_timer].

Ltac last_object :=
  repeat match goal with
    | |- context [alter ?f (length ?l) (?l ++ [?x])] =>
        rewrite (alter_app_new f l x); reduce_objects
    | |- context [(?l ++ [?x]) !! length ?l] =>
        rewrite (list_lookup_middle l [] x (length l) eq_refl); reduce_objects
    end.

Lemma check_autosave_eq st :
  check_autosave st =
    let tr := trace st ++ [Log DEBUG [FStr "Autosave timer triggered"];
                           HouHscript "autosave";
                           Log DEBUG [FStr "Autosave enabled: "; FBool (host_autosave_on st)];
                           HouHscript "autosave"] in
    if host_autosave_on st then (Ret tt, set_trace tr st)
    else
      let m := length (msgs st) in
      (Ret tt,
       mkState (autosave_session_mute st) (autosave_timer st) (Some m)
               (autosave_interval st) (timers st) (msgs st ++ [prompt])
               (callbacks st) (host st) (tr ++ [MsgNew m; MsgShow m])).
Proof.
  open_state st. unfold check_autosave, autosave_enabled. run.
  destruct (_ =? _)%string; run.
  - now rewrite <- !app_assoc.
  - last_object. cbn [length app]. rewrite <- !app_assoc. reflexivity.
Qed.

(** ** What a method adds to the trace *)

Lemma extends_refl p st : extends p st st.
Proof. exists []. split; [now rewrite app_nil_r | reflexivity]. Qed.

Lemma extends_trans p st1 st2 st3 :
  extends p st1 st2 -> extends p st2 st3 -> extends p st1 st3.
Proof.
  intros (l1 & E1 & F1) (l2 & E2 & F2). exists (l1 ++ l2). split.
  - now rewrite E2, E1, app_assoc.
  - rewrite forallb_app. now rewrite F1, F2.
Qed.

Lemma extends_new_calls p st st' :
  extends p st st' -> forallb p (new_calls st st') = true.
Proof. intros (l & E & F). now rewrite (new_calls_app _ _ _ E). Qed.

(** Closes a goal [extends p st st'] on computed traces. *)
Ltac solve_extends :=
  lazymatch goal with
  | |- extends _ _ _ =>
      unfold extends;
      cbn [trace set_trace set_callbacks set_host set_msgs set_timers
           set_interval set_msg set_timer set_mute];
      first [ exists []; split; [ symmetry; apply app_nil_r | reflexivity ]
            | eexists; split;
              [ rewrite <- ?app_assoc; cbn [app]; reflexivity | reflexivity ] ]
  end.

(** Runs a method on a symbolic state and splits on everything it tests. *)
Ltac atomic x :=
  lazymatch x with
  | context [match _ with _ => _ end] => fail
  | _ => idtac
  end.

Ltac split_once :=
  match goal with
  | |- context [match ?x with _ => _ end] => atomic x; destruct x eqn:?
  end.

Ltac crunch := run; repeat (split_once; run).

(** [start_autosave_timer] keeps the mute flag, the host, the registered
    callbacks and the number of prompts; it never saves, never shows or
    creates a prompt. *)
Lemma start_autosave_timer_frame quit st :
  let st' := snd (start_autosave_timer quit st) in
  autosave_session_mute st' = autosave_session_mute st /\
  host st' = host st /\
  callbacks st' = callbacks st /\
  length (msgs st') = length (msgs st) /\
  extends (fun c => negb (is_save c) && negb (is_msg_show c) && negb (is_msg_new c)) st st'.
Proof.
  open_state st. unfold start_autosave_timer, is_autosave_timer_active,
    should_autosave_timer_run.
  crunch; repeat split; try reflexivity; try solve_extends;
    rewrite ?length_alter; reflexivity.
Qed.

(** ** The shape of [start_autosave_timer] *)

Lemma is_autosave_timer_active_eq st :
  is_autosave_timer_active st = (Ret (timer_is_active st), st).
Proof.
  open_state st. unfold is_autosave_timer_active, timer_is_active. run.
  destruct tmr; reflexivity.
Qed.

Ltac use_eqns :=
  repeat match goal with
    | H : ?x = _ |- context [?x] => rewrite H
    end.

(** The timers after [start_autosave_timer]: the stopped ones, and possibly a
    new single-shot timer wired to [check_autosave], which the manager then
    holds.  A new timer is created only when not quitting and not muted. *)
Lemma start_autosave_timer_shape quit st :
  let st' := snd (start_autosave_timer quit st) in
  (timers st' = stopped_timers st /\ autosave_timer st' = autosave_timer st /\
   extends no_start st st')
  \/
  (quit = false /\ autosave_session_mute st = false /\
   autosave_timer st' = Some (length (timers st)) /\
   exists a ms,
     timers st' = stopped_timers st ++ [mkTimer true a ms [SlotCheckAutosave]]).
Proof.
  open_state st. unfold start_autosave_timer, is_autosave_timer_active,
    should_autosave_timer_run.
  crunch; subst;
    unfold stopped_timers, timer_is_active;
    cbn [autosave_timer timers]; use_eqns;
    first
      [ left; repeat split; solve_extends
      | right; repeat split;
        first [ reflexivity
              | rewrite length_alter; reflexivity
              | do 2 eexists; last_object; reflexivity ] ].
Qed.

Lemma should_autosave_timer_run_eq st :
  should_autosave_timer_run st =
    (Ret (should_run st),
     if autosave_session_mute st
     then set_trace (trace st ++ [Log DEBUG [FStr "Autosave session is muted"]]) st
     else st).
Proof.
  open_state st. unfold should_autosave_timer_run, should_run. crunch; reflexivity.
Qed.

Lemma save_scene_eq st :
  save_scene st =
    match save_failure (host st) with
    | None =>
        (Ret true,
         set_trace (trace st ++ [HouSave; Log INFO [FStr "Scene saved successfully"]]) st)
    | Some e =>
        (Ret false,
         set_trace (trace st ++ [HouSave; Log ERROR [FStr "Error saving scene: "; FExc e]]) st)
    end.
Proof.
  open_state st. unfold save_scene. crunch; rewrite <- app_assoc; reflexivity.
Qed.

Lemma auto_save_done_eq action st :
  auto_save_done action st =
    match clicked_text st with
    | Some s =>
        if (s =? save_label)%string
        then start_autosave_timer false (snd (save_scene st))
        else if (s =? mute_label)%string
             then start_autosave_timer true (set_mute true st)
             else start_autosave_timer false st
    | None => start_autosave_timer false st
    end.
Proof.
  rewrite save_scene_eq.
  open_state st. unfold auto_save_done, clicked_text.
  cbn [autosave_msg msgs host].
  destruct box as [m|]; [|reflexivity].
  run. destruct (mbs !! m) as [mb|] eqn:E; [|reflexivity].
  destruct (mb_clicked mb) as [i|] eqn:Ei; [|reflexivity].
  run. rewrite E.
  destruct (_ =? save_label)%string eqn:Es.
  - unfold save_scene. run. destruct (save_failure h); run; now rewrite <- app_assoc.
  - run. rewrite E. destruct (_ =? mute_label)%string; reflexivity.
Qed.

Lemma on_scene_file_saved_eq st :
  on_scene_file_saved st =
    if should_run st then start_autosave_timer false st
    else (Ret tt, snd (should_autosave_timer_run st)).
Proof.
  unfold on_scene_file_saved, bind. rewrite should_autosave_timer_run_eq.
  unfold should_run. destruct (autosave_session_mute st); [reflexivity|].
  cbn [snd]. now destruct (qapp_thread (host st)) as [th|]; [destruct (_ =? _)%nat|].
Qed.

(** ** The timer invariant *)

Lemma length_stopped_timers st : length (stopped_timers st) = length (timers st).
Proof.
  unfold stopped_timers. destruct (autosave_timer st); [|reflexivity].
  destruct (timer_is_active st); [apply length_alter | reflexivity].
Qed.

(** After the first block of [start_autosave_timer] nothing runs. *)
Lemma stopped_timers_idle st t tm :
  single_active st -> stopped_timers st !! t = Some tm -> tm_active tm = false.
Proof.
  intros Hs Hl. unfold stopped_timers in Hl.
  destruct (tm_active tm) eqn:Ha; [exfalso | reflexivity].
  destruct (autosave_timer st) as [t0|] eqn:Ht.
  - destruct (timer_is_active st) eqn:Hact.
    + destruct (decide (t0 = t)) as [->|Hne].
      * rewrite list_lookup_alter_eq in Hl.
        destruct (timers st !! t) as [tm0|]; [|discriminate].
        cbn in Hl. injection Hl as <-. discriminate Ha.
      * rewrite list_lookup_alter_ne in Hl by assumption.
        destruct (Hs t tm Hl Ha) as (E & _). congruence.
    + destruct (Hs t tm Hl Ha) as (E & _).
      unfold timer_is_active in Hact. rewrite E, Hl in Hact. congruence.
  - destruct (Hs t tm Hl Ha) as (E & _). congruence.
Qed.

Lemma start_autosave_timer_single_active quit st :
  single_active st -> single_active (snd (start_autosave_timer quit st)).
Proof.
  intros Hs t tm Hl Ha.
  destruct (start_autosave_timer_shape quit st) as [(Et & _) | (_ & _ & En & a & ms & Et)];
    rewrite Et in Hl.
  - rewrite (stopped_timers_idle st t tm Hs Hl) in Ha. discriminate.
  - apply lookup_snoc_Some in Hl as [(_ & Hl) | (El & <-)].
    + rewrite (stopped_timers_idle st t tm Hs Hl) in Ha. discriminate.
    + rewrite length_stopped_timers in El. subst t. now rewrite En.
Qed.

(** Quitting or muted, [start_autosave_timer] leaves no timer running. *)
Lemma start_autosave_timer_idle quit st :
  single_active st ->
  quit = true \/ autosave_session_mute st = true ->
  idle (snd (start_autosave_timer quit st)).
Proof.
  intros Hs Hq t tm Hl.
  destruct (start_autosave_timer_shape quit st) as [(Et & _) | (Q & Mu & _)].
  - rewrite Et in Hl. exact (stopped_timers_idle st t tm Hs Hl).
  - destruct Hq; congruence.
Qed.

(** The prompts after [start_autosave_timer]: as before, one possibly closed. *)
Lemma start_autosave_timer_msgs quit st :
  let st' := snd (start_autosave_timer quit st) in
  autosave_msg st' = autosave_msg st /\
  (msgs st' = msgs st \/ exists m, msgs st' = alter (set_visible false) m (msgs st)).
Proof.
  open_state st. unfold start_autosave_timer, is_autosave_timer_active,
    should_autosave_timer_run.
  crunch; split; try reflexivity; first [ left; reflexivity | right; eexists; reflexivity ].
Qed.

Lemma wired_alter_visible st st' :
  callbacks st' = callbacks st ->
  (msgs st' = msgs st \/ exists m, msgs st' = alter (set_visible false) m (msgs st)) ->
  wired st -> wired st'.
Proof.
  intros Ec Em (Hc & Hf). split; [now rewrite Ec|].
  intros m mb Hl. destruct Em as [Em | (m0 & Em)]; rewrite Em in Hl.
  - eauto.
  - destruct (decide (m0 = m)) as [->|Hne].
    + rewrite list_lookup_alter_eq in Hl.
      destruct (msgs st !! m) as [mb0|] eqn:E0; [|discriminate].
      cbn in Hl. injection Hl as <-. cbn. eauto.
    + rewrite list_lookup_alter_ne in Hl by assumption. eauto.
Qed.

Lemma start_autosave_timer_wf quit st :
  single_active st -> wired st -> wf (snd (start_autosave_timer quit st)).
Proof.
  intros Hs Hw.
  destruct (start_autosave_timer_frame quit st) as (Em & _ & Ec & _ & _).
  destruct (start_autosave_timer_msgs quit st) as (_ & Eb).
  split; [|split].
  - now apply start_autosave_timer_single_active.
  - intros Hm. apply start_autosave_timer_idle; [assumption|].
    right. now rewrite <- Em.
  - now apply (wired_alter_visible st).
Qed.

(** The invariant only reads these attributes. *)
Lemma wf_same st st' :
  autosave_session_mute st' = autosave_session_mute st ->
  autosave_timer st' = autosave_timer st ->
  timers st' = timers st ->
  msgs st' = msgs st ->
  callbacks st' = callbacks st ->
  wf st -> wf st'.
Proof.
  intros E1 E2 E3 E4 E5 (Hs & Hm & Hc & Hf).
  unfold wf, single_active, idle, wired. rewrite E1, E2, E3, E4, E5. auto.
Qed.

Lemma check_autosave_wf st : wf st -> wf (snd (check_autosave st)).
Proof.
  intros H. rewrite check_autosave_eq. cbv zeta.
  destruct (host_autosave_on st); cbn [snd].
  - now apply (wf_same st).
  - destruct H as (Hs & Hm & Hc & Hf).
    split; [exact Hs | split; [exact Hm | split; [exact Hc|]]].
    intros m mb Hl. cbn [msgs] in Hl.
    apply lookup_snoc_Some in Hl as [(_ & Hl) | (_ & <-)]; [eauto|].
    reflexivity.
Qed.

Lemma save_scene_wf st : wf st -> wf (snd (save_scene st)).
Proof.
  intros H. rewrite save_scene_eq.
  destruct (save_failure (host st)); now apply (wf_same st).
Qed.

Lemma auto_save_done_wf action st : wf st -> wf (snd (auto_save_done action st)).
Proof.
  intros H. rewrite auto_save_done_eq.
  assert (G : forall q, wf (snd (start_autosave_timer q st)))
    by (intros q; destruct H as (? & ? & ?); now apply start_autosave_timer_wf).
  destruct (clicked_text st) as [s|]; [|apply G].
  destruct (s =? save_label)%string.
  - apply save_scene_wf in H. destruct H as (? & ? & ?).
    now apply start_autosave_timer_wf.
  - destruct (s =? mute_label)%string; [|apply G].
    destruct H as (? & ? & ?). now apply start_autosave_timer_wf.
Qed.

Lemma should_autosave_timer_run_wf st :
  wf st -> wf (snd (should_autosave_timer_run st)).
Proof.
  intros H. rewrite should_autosave_timer_run_eq. cbn [snd].
  destruct (autosave_session_mute st) eqn:E; [|assumption].
  apply (wf_same st); try reflexivity. assumption.
Qed.

Lemma on_scene_file_saved_wf st : wf st -> wf (snd (on_scene_file_saved st)).
Proof.
  intros H. rewrite on_scene_file_saved_eq. destruct (should_run st).
  - destruct H as (? & ? & ?). now apply start_autosave_timer_wf.
  - now apply should_autosave_timer_run_wf.
Qed.

Lemma scene_event_callback_wf e st : wf st -> wf (snd (scene_event_callback e st)).
Proof.
  intros H. unfold scene_event_callback.
  destruct (hipFileEventType_eqb e AfterSave); [now apply on_scene_file_saved_wf | exact H].
Qed.

Lemma setup_wf st : wf st -> wf (snd (setup st)).
Proof.
  intros H. unfold setup. unfold bind at 1.
  pose proof (should_autosave_timer_run_wf st H) as H1.
  destruct (should_autosave_timer_run st) as [[run|e] st1]; cbn [snd] in *; [|exact H1].
  assert (H2 : wf (snd ((if run then start_autosave_timer false else ret tt) st1))).
  { destruct run; [|exact H1]. destruct H1 as (? & ? & ?).
    now apply start_autosave_timer_wf. }
  unfold bind at 1.
  destruct ((if run then start_autosave_timer false else ret tt) st1) as [[[]|e] st2];
    cbn [snd] in *; [|exact H2].
  run. destruct H2 as (Hs & Hm & Hc & Hf).
  split; [exact Hs | split; [exact Hm | split; [|exact Hf]]].
  cbn [callbacks]. apply Forall_app. split; [assumption | now constructor].
Qed.

Lemma call_slot_wf s p st : wf st -> wf (snd (call_slot s p st)).
Proof.
  intros H. destruct s, p; cbn [call_slot];
    auto using check_autosave_wf, auto_save_done_wf, scene_event_callback_wf.
Qed.

Lemma call_slots_wf l p st : wf st -> wf (call_slots l p st).
Proof.
  revert st. induction l as [|s l IH]; intros st H; cbn [call_slots]; [exact H|].
  apply IH. now apply call_slot_wf.
Qed.

Lemma init_wf h : wf (init h).
Proof.
  split; [|split; [|split]].
  - intros ? ? Hl. cbn in Hl. discriminate.
  - intros _ ? ? Hl. cbn in Hl. discriminate.
  - constructor.
  - intros ? ? Hl. cbn in Hl. discriminate.
Qed.

(** When a running timer expires it is the one the manager holds and it
    stops: nothing runs while its slot is called. *)
Lemma expire_idle st t tm :
  wf st -> timers st !! t = Some tm -> tm_active tm = true ->
  idle (set_timers (alter expire t (timers st)) st).
Proof.
  intros (Hs & _) Hl Ha t' tm' Hl'. cbn [timers set_timers] in Hl'.
  destruct (Hs t tm Hl Ha) as (Et & Hss & _).
  destruct (decide (t = t')) as [<-|Hne].
  - rewrite list_lookup_alter_eq, Hl in Hl'. cbn in Hl'. injection Hl' as <-.
    cbn. now rewrite Hss.
  - rewrite list_lookup_alter_ne in Hl' by assumption.
    destruct (tm_active tm') eqn:Ha'; [|reflexivity].
    destruct (Hs t' tm' Hl' Ha') as (Et' & _). congruence.
Qed.

Lemma idle_wf st :
  idle st -> wired st -> wf st.
Proof.
  intros Hi Hw. split; [|split; [auto | exact Hw]].
  intros t tm Hl Ha. rewrite (Hi t tm Hl) in Ha. discriminate.
Qed.

Lemma step_wf ev st st' : wf st -> step ev st = Some st' -> wf st'.
Proof.
  intros H E. destruct ev as [|t|m a|e|v|h]; cbn [step] in E.
  - injection E as <-. now apply setup_wf.
  - destruct (timers st !! t) as [tm|] eqn:Hl; [|discriminate].
    destruct (tm_active tm) eqn:Ha; [|discriminate]. injection E as <-.
    apply call_slots_wf. apply idle_wf.
    + now apply (expire_idle st t tm).
    + exact (proj2 (proj2 H)).
  - destruct (msgs st !! m) as [b|] eqn:Hl; [|discriminate].
    destruct (mb_visible b); [|discriminate].
    destruct (chosen b a) as [i|]; [|discriminate].
    injection E as <-. apply call_slots_wf.
    destruct H as (Hs & Hm & Hc & Hf).
    split; [exact Hs | split; [exact Hm | split; [exact Hc|]]].
    intros m' mb' Hl'. unfold pressed in Hl'. cbn [msgs set_msgs] in Hl'.
    destruct (decide (m = m')) as [<-|Hne].
    + rewrite list_lookup_alter_eq, Hl in Hl'. cbn in Hl'. injection Hl' as <-.
      cbn. eauto.
    + rewrite list_lookup_alter_ne in Hl' by assumption. eauto.
  - injection E as <-. now apply call_slots_wf.
  - injection E as <-. now apply (wf_same st).
  - injection E as <-. now apply (wf_same st).
Qed.

Lemma reachable_wf st : reachable st -> wf st.
Proof.
  induction 1 as [h | st ev st' _ IH E]; [apply init_wf | exact (step_wf ev st st' IH E)].
Qed.



(** ** Calls a method does not make *)

Lemma extends_and p q st st' :
  extends p st st' -> extends q st st' -> extends (fun c => p c && q c) st st'.
Proof.
  intros (l1 & E1 & F1) (l2 & E2 & F2). rewrite E1 in E2.
  apply app_inv_head in E2. subst l2. exists l1. split; [assumption|].
  rewrite forallb_forall in *. intros c Hc. now rewrite F1, F2.
Qed.

Lemma extends_weaken (p q : call -> bool) st st' :
  (forall c, p c = true -> q c = true) -> extends p st st' -> extends q st st'.
Proof.
  intros Hpq (l & E & F). exists l. split; [assumption|].
  rewrite forallb_forall in *. auto.
Qed.

Lemma extends_same_trace p st0 st st' :
  trace st0 = trace st -> extends p st st' -> extends p st0 st'.
Proof. intros E (l & El & F). exists l. now rewrite E. Qed.

Lemma extends_log p st l c :
  p c = true -> extends p st (set_trace (trace st ++ [c]) l).
Proof.
  intros Hc. exists [c]. split; [reflexivity|]. cbn. now rewrite Hc.
Qed.

Lemma start_autosave_timer_no_save quit st :
  extends no_save st (snd (start_autosave_timer quit st)).
Proof.
  destruct (start_autosave_timer_frame quit st) as (_ & _ & _ & _ & H).
  revert H. apply extends_weaken. intros c. unfold no_save.
  now destruct (is_save c).
Qed.

Lemma start_autosave_timer_quiet quit st :
  quit = true \/ autosave_session_mute st = true ->
  extends quiet st (snd (start_autosave_timer quit st)).
Proof.
  intros Hq.
  destruct (start_autosave_timer_frame quit st) as (_ & _ & _ & _ & H1).
  destruct (start_autosave_timer_shape quit st) as [(_ & _ & H2) | (Q & Mu & _)].
  - generalize (extends_and _ _ _ _ H1 H2). apply extends_weaken.
    intros c. unfold quiet, wakes, no_start.
    destruct (is_save c), (is_msg_show c), (is_msg_new c), (is_timer_start c);
      cbn; congruence.
  - destruct Hq; congruence.
Qed.

Lemma save_scene_extends p st :
  p HouSave = true -> (forall l msg, p (Log l msg) = true) ->
  extends p st (snd (save_scene st)).
Proof.
  intros H1 H2. rewrite save_scene_eq.
  destruct (save_failure (host st)); cbn [snd];
    (eexists; split; [reflexivity|]); cbn; now rewrite H1, H2.
Qed.

Lemma should_autosave_timer_run_extends p st :
  (forall l msg, p (Log l msg) = true) ->
  extends p st (snd (should_autosave_timer_run st)).
Proof.
  intros H. rewrite should_autosave_timer_run_eq. cbn [snd].
  destruct (autosave_session_mute st); [|apply extends_refl].
  apply extends_log, H.
Qed.

Lemma check_autosave_no_save st : extends no_save st (snd (check_autosave st)).
Proof.
  rewrite check_autosave_eq. cbv zeta.
  destruct (host_autosave_on st); cbn [snd]; solve_extends.
Qed.

Lemma on_scene_file_saved_no_save st :
  extends no_save st (snd (on_scene_file_saved st)).
Proof.
  rewrite on_scene_file_saved_eq. destruct (should_run st); cbn [snd].
  - apply start_autosave_timer_no_save.
  - now apply should_autosave_timer_run_extends.
Qed.

Lemma scene_event_callback_no_save e st :
  extends no_save st (snd (scene_event_callback e st)).
Proof.
  unfold scene_event_callback. destruct (hipFileEventType_eqb e AfterSave).
  - apply on_scene_file_saved_no_save.
  - apply extends_refl.
Qed.

(** [setup]: the timer is started when it should run; unless that raises,
    the callback is registered with the host. *)
Lemma setup_eq st :
  setup st =
    let st1 := snd (should_autosave_timer_run st) in
    match (if should_run st then start_autosave_timer false st1 else (Ret tt, st1)) with
    | (Ret _, st2) =>
        (Ret tt,
         set_trace (trace st2 ++ [HouAddEventCallback SlotSceneEventCallback;
                                  Log DEBUG [FStr "Added Houdini hipFile event callback"]])
                   (set_callbacks (callbacks st2 ++ [SlotSceneEventCallback]) st2))
    | (Raise e, st2) => (Raise e, st2)
    end.
Proof.
  unfold setup. unfold bind at 1. rewrite should_autosave_timer_run_eq.
  cbn [snd]. cbv zeta. unfold bind at 1.
  destruct (should_run st).
  - destruct (start_autosave_timer false _) as [[[]|e] st2]; [|reflexivity].
    open_state st2. run. now rewrite <- app_assoc.
  - unfold ret at 1.
    destruct (if autosave_session_mute st then _ else _) as [] eqn:E.
    run. now rewrite <- app_assoc.
Qed.

Lemma setup_no_save st : extends no_save st (snd (setup st)).
Proof.
  rewrite setup_eq. cbv zeta.
  pose proof (should_autosave_timer_run_extends no_save st (fun _ _ => eq_refl)) as H1.
  set (st1 := snd (should_autosave_timer_run st)) in *.
  assert (H2 : extends no_save st
                 (snd (if should_run st then start_autosave_timer false st1
                       else (Ret tt, st1)))).
  { destruct (should_run st); [|exact H1].
    eapply extends_trans; [exact H1 | apply start_autosave_timer_no_save]. }
  destruct (if should_run st then _ else _) as [[[]|e] st2]; cbn [snd] in *; [|exact H2].
  eapply extends_trans; [exact H2|]. solve_extends.
Qed.

(** ** Starting the timer *)

(** As [crunch], also running the builtins on the interval. *)
Ltac run_py := run; cbv beta iota delta [Py.float_ Py.mul_int Py.int_ Py.exc_cls].
Ltac crunch_py := run_py; repeat (split_once; run_py).


(** ** Saving *)

Lemma extends_no_save_saves st st' :
  extends no_save st st' -> saves (new_calls st st') = 0%nat.
Proof.
  intros (l & El & Fl). rewrite (new_calls_app _ _ _ El). unfold saves.
  clear El. induction l as [|c l IH]; [reflexivity|]. cbn in Fl |- *.
  apply andb_prop in Fl as (Fc & Fl). unfold no_save in Fc.
  destruct (is_save c); [discriminate|]. auto.
Qed.

Lemma new_calls_trans p q st st1 st2 :
  extends p st st1 -> extends q st1 st2 ->
  new_calls st st2 = new_calls st st1 ++ new_calls st1 st2.
Proof.
  intros (l1 & E1 & _) (l2 & E2 & _).
  rewrite (new_calls_app _ _ _ E1), (new_calls_app _ _ _ E2).
  apply new_calls_app. now rewrite E2, E1, <- app_assoc.
Qed.

Lemma save_scene_new_calls st :
  new_calls st (snd (save_scene st)) =
    HouSave :: match save_failure (host st) with
               | None => [Log INFO [FStr "Scene saved successfully"]]
               | Some e => [Log ERROR [FStr "Error saving scene: "; FExc e]]
               end.
Proof.
  rewrite save_scene_eq.
  destruct (save_failure (host st)); cbn [snd]; now apply new_calls_app.
Qed.

(** [save_scene] only adds to the trace. *)
Lemma save_scene_frame st :
  let st' := snd (save_scene st) in
  autosave_session_mute st' = autosave_session_mute st /\
  autosave_timer st' = autosave_timer st /\
  autosave_msg st' = autosave_msg st /\
  autosave_interval st' = autosave_interval st /\
  timers st' = timers st /\
  msgs st' = msgs st /\
  callbacks st' = callbacks st /\
  host st' = host st.
Proof.
  cbv zeta. rewrite save_scene_eq.
  destruct (save_failure (host st)); cbn [snd]; repeat split.
Qed.


(* ===================================================================== *)
(** * The claims *)
(* ===================================================================== *)

(** C5. [autosave_enabled] returns True exactly when the first element of
    what the host answers to [hscript("autosave")] is the string
    "autosave on" followed by a newline; for every other string it returns
    False.  It never raises. *)
Theorem autosave_enabled_iff_reply (st : state) :
  exists b : bool,
    fst (autosave_enabled st) = Ret b /\
    (b = true <-> fst (hscript (host st) "autosave") = autosave_on).
Proof.
  exists (host_autosave_on st). split; [now rewrite autosave_enabled_eq|].
  unfold host_autosave_on. apply String.eqb_eq.
Qed.


(** C1. When the timer fires, [check_autosave] shows the prompt if and only
    if [autosave_enabled] returns False.  The prompt it shows is the new
    message box [prompt]: not modal, visible, asking whether to save, held in
    [autosave_msg].  When autosave is enabled no message box is created: the
    boxes and [autosave_msg] are as before and the trace has neither a
    creation nor a show. *)
Theorem check_autosave_prompts_iff_disabled (st : state) :
  let st' := snd (check_autosave st) in
  let m := length (msgs st) in
  fst (check_autosave st) = Ret tt /\
  fst (autosave_enabled st) = Ret (host_autosave_on st) /\
  ((exists k, In (MsgShow k) (new_calls st st')) <->
   fst (autosave_enabled st) = Ret false) /\
  (if host_autosave_on st
   then msgs st' = msgs st /\
        autosave_msg st' = autosave_msg st /\
        forallb (fun c => negb (is_msg_new c) && negb (is_msg_show c))
                (new_calls st st') = true
   else msgs st' = msgs st ++ [prompt] /\
        autosave_msg st' = Some m /\
        List.filter (fun c => is_msg_new c || is_msg_show c) (new_calls st st')
          = [MsgNew m; MsgShow m]) /\
  mb_modal prompt = false /\
  mb_visible prompt = true /\
  mb_text prompt = "Autosave is disabled. Would you like to save now?".
Proof.
  cbv zeta. rewrite check_autosave_eq, autosave_enabled_eq. cbv zeta.
  destruct (host_autosave_on st); cbn [fst snd];
    (split; [reflexivity|]); (split; [reflexivity|]);
    erewrite new_calls_app
      by (cbn [trace set_trace]; rewrite <- ?app_assoc; reflexivity).
  - split; [|repeat split].
    split; [|discriminate]. intros (k & Hk). cbn in Hk.
    repeat destruct Hk as [Hk|Hk]; try discriminate; contradiction.
  - split; [|repeat split].
    split; [reflexivity|]. intros _. exists (length (msgs st)). cbn. tauto.
Qed.





(** C7. The only persisting call the manager makes is hou.hipFile.save().
    [save_scene] makes it exactly once; [auto_save_done] makes it exactly
    once when the clicked button is "Save" and not at all otherwise; every
    other method (the enabled check, the timer start and stop, the timer
    slot, the event callbacks, setup) makes none. *)
Theorem saves_only_on_save_click (m : method) (st : state) :
  length (List.filter persists (new_calls st (exec m st))) =
    match m with
    | m_save_scene => 1%nat
    | m_auto_save_done _ =>
        match clicked_text st with
        | Some s => if (s =? save_label)%string then 1%nat else 0%nat
        | None => 0%nat
        end
    | _ => 0%nat
    end.
Proof.
  change (length (List.filter persists (new_calls st (exec m st))))
    with (saves (new_calls st (exec m st))).
  destruct m; cbn [exec].
  - rewrite autosave_enabled_eq. cbn [snd].
    now erewrite new_calls_app by reflexivity.
  - rewrite save_scene_new_calls. now destruct (save_failure (host st)).
  - apply extends_no_save_saves. now apply should_autosave_timer_run_extends.
  - rewrite is_autosave_timer_active_eq. apply extends_no_save_saves, extends_refl.
  - apply extends_no_save_saves, start_autosave_timer_no_save.
  - apply extends_no_save_saves, check_autosave_no_save.
  - rewrite auto_save_done_eq. destruct (clicked_text st) as [s|] eqn:Hc.
    + destruct (s =? save_label)%string eqn:Hs.
      * pose proof (start_autosave_timer_no_save false (snd (save_scene st))) as Hx.
        rewrite (new_calls_trans (fun _ => true) no_save st (snd (save_scene st)));
          [|apply save_scene_extends; reflexivity | exact Hx].
        unfold saves in *. rewrite List.filter_app, length_app.
        fold (saves (new_calls (snd (save_scene st))
                (snd (start_autosave_timer false (snd (save_scene st)))))).
        rewrite (extends_no_save_saves _ _ Hx), save_scene_new_calls.
        now destruct (save_failure (host st)).
      * apply extends_no_save_saves.
        destruct (s =? mute_label)%string.
        -- apply (extends_same_trace _ _ (set_mute true st)); [reflexivity|].
           apply start_autosave_timer_no_save.
        -- apply start_autosave_timer_no_save.
    + apply extends_no_save_saves, start_autosave_timer_no_save.
  - apply extends_no_save_saves, on_scene_file_saved_no_save.
  - apply extends_no_save_saves, scene_event_callback_no_save.
  - apply extends_no_save_saves, setup_no_save.
Qed.

(** ** After the mute button *)

(** [start_autosave_timer] begins with the stop of the running timer and the
    close of the prompt, and stops or closes nothing after that. *)
Lemma start_autosave_timer_first quit st :
  exists rest,
    new_calls st (snd (start_autosave_timer quit st)) = stop_calls st ++ rest /\
    forallb no_stop rest = true.
Proof.
  open_state st. unfold start_autosave_timer, is_autosave_timer_active,
    should_autosave_timer_run.
  crunch; subst; unfold new_calls, stop_calls, timer_is_active;
    cbn [autosave_timer autosave_msg timers trace]; use_eqns;
    rewrite <- ?app_assoc;
    first [ rewrite drop_app_length | rewrite drop_all ];
    cbn [app]; eexists; (split; [reflexivity|reflexivity]).
Qed.

Lemma start_autosave_timer_quit_returns st :
  fst (start_autosave_timer true st) = Ret tt.
Proof.
  open_state st. unfold start_autosave_timer, is_autosave_timer_active.
  crunch; reflexivity.
Qed.

Lemma quiet_log p l msg st :
  extends quiet st (set_trace (trace st ++ [Log l msg]) p).
Proof. now apply extends_log. Qed.

Lemma auto_save_done_muted action st :
  autosave_session_mute st = true ->
  let st' := snd (auto_save_done action st) in
  autosave_session_mute st' = true /\ extends quiet st st'.
Proof.
  intros Hm. cbv zeta. rewrite auto_save_done_eq.
  assert (G : autosave_session_mute (snd (start_autosave_timer false st)) = true /\
              extends quiet st (snd (start_autosave_timer false st))).
  { split; [|apply start_autosave_timer_quiet; now right].
    destruct (start_autosave_timer_frame false st) as (E & _). now rewrite E. }
  destruct (clicked_text st) as [s|]; [|exact G].
  destruct (s =? save_label)%string.
  - destruct (save_scene_frame st) as (E1 & _).
    destruct (start_autosave_timer_frame false (snd (save_scene st))) as (E2 & _).
    split; [now rewrite E2, E1|].
    eapply extends_trans; [apply save_scene_extends; reflexivity|].
    apply start_autosave_timer_quiet. right. now rewrite E1.
  - destruct (s =? mute_label)%string; [|exact G].
    destruct (start_autosave_timer_frame true (set_mute true st)) as (E & _).
    split; [now rewrite E|].
    apply (extends_same_trace _ _ (set_mute true st)); [reflexivity|].
    apply start_autosave_timer_quiet. now left.
Qed.

Lemma should_run_muted st : autosave_session_mute st = true -> should_run st = false.
Proof. intros H. unfold should_run. now rewrite H. Qed.

Lemma scene_event_callback_muted e st :
  autosave_session_mute st = true ->
  let st' := snd (scene_event_callback e st) in
  autosave_session_mute st' = true /\ extends quiet st st'.
Proof.
  intros Hm. cbv zeta. unfold scene_event_callback.
  destruct (hipFileEventType_eqb e AfterSave); [|split; [exact Hm | apply extends_refl]].
  rewrite on_scene_file_saved_eq, (should_run_muted st Hm), should_autosave_timer_run_eq.
  cbn [snd]. rewrite Hm. split; [exact Hm | apply quiet_log].
Qed.

Lemma setup_muted st :
  autosave_session_mute st = true ->
  let st' := snd (setup st) in
  autosave_session_mute st' = true /\ extends quiet st st'.
Proof.
  intros Hm. cbv zeta. rewrite setup_eq. cbv zeta.
  rewrite (should_run_muted st Hm), should_autosave_timer_run_eq. cbn [snd].
  rewrite Hm. cbn [snd]. split; [exact Hm|]. solve_extends.
Qed.

Lemma call_slots_muted l p st :
  Forall (fun s => s <> SlotCheckAutosave) l ->
  autosave_session_mute st = true ->
  autosave_session_mute (call_slots l p st) = true /\
  extends quiet st (call_slots l p st).
Proof.
  intros Hl. revert st. induction Hl as [|s l Hs _ IH]; intros st Hm; cbn [call_slots].
  - split; [exact Hm | apply extends_refl].
  - assert (G : autosave_session_mute (snd (call_slot s p st)) = true /\
                extends quiet st (snd (call_slot s p st))).
    { destruct s; [congruence| |].
      - destruct p; cbn [call_slot]; now apply auto_save_done_muted.
      - destruct p; cbn [call_slot]; try (split; [exact Hm | apply extends_refl]).
        now apply scene_event_callback_muted. }
    destruct G as (G1 & G2). destruct (IH _ G1) as (I1 & I2).
    split; [exact I1 | exact (extends_trans _ _ _ _ G2 I2)].
Qed.

Lemma step_muted ev st st' :
  muted st -> step ev st = Some st' -> muted st' /\ extends quiet st st'.
Proof.
  intros (Hm & Hwf) E. pose proof (step_wf ev st st' Hwf E) as Hwf'.
  assert (G : autosave_session_mute st' = true /\ extends quiet st st');
    [|destruct G as (G1 & G2); split; [split; assumption | assumption]].
  destruct Hwf as (Hs & Hi & Hc & Hf). specialize (Hi Hm).
  destruct ev as [|t|m a|e|v|h]; cbn [step] in E.
  - injection E as <-. now apply setup_muted.
  - destruct (timers st !! t) as [tm|] eqn:Hl; [|discriminate].
    now rewrite (Hi t tm Hl) in E.
  - destruct (msgs st !! m) as [b|] eqn:Hl; [|discriminate].
    destruct (mb_visible b); [|discriminate].
    destruct (chosen b a) as [i|]; [|discriminate]. injection E as <-.
    rewrite (Hf m b Hl).
    apply (call_slots_muted [SlotAutoSaveDone] (PInt (Z.of_nat i)) (pressed m i st));
      [|exact Hm].
    repeat constructor. discriminate.
  - injection E as <-. apply call_slots_muted; [|exact Hm].
    eapply Forall_impl; [exact Hc|]. intros s <-. discriminate.
  - injection E as <-. split; [exact Hm | exists []; now rewrite app_nil_r].
  - injection E as <-. split; [exact Hm | exists []; now rewrite app_nil_r].
Qed.

Lemma steps_muted evs st st' :
  muted st -> steps evs st = Some st' -> muted st' /\ extends quiet st st'.
Proof.
  revert st. induction evs as [|ev evs IH]; intros st Hm E; cbn [steps] in E.
  - injection E as <-. split; [exact Hm | apply extends_refl].
  - destruct (step ev st) as [st1|] eqn:E1; [|discriminate].
    destruct (step_muted ev st st1 Hm E1) as (Hm1 & X1).
    destruct (IH st1 Hm1 E) as (Hm' & X2).
    split; [exact Hm' | exact (extends_trans _ _ _ _ X1 X2)].
Qed.

(** The state in which Qt calls the slots of an answered prompt keeps the
    invariant. *)
Lemma pressed_wf m i st : wf st -> wf (pressed m i st).
Proof.
  intros (Hs & Hm & Hc & Hf).
  split; [exact Hs | split; [exact Hm | split; [exact Hc|]]].
  intros m' mb' Hl'. unfold pressed in Hl'. cbn [msgs set_msgs] in Hl'.
  destruct (decide (m = m')) as [<-|Hne].
  - rewrite list_lookup_alter_eq in Hl'.
    destruct (msgs st !! m) as [b|] eqn:Hl; [|discriminate].
    cbn in Hl'. injection Hl' as <-. cbn. eauto.
  - rewrite list_lookup_alter_ne in Hl' by assumption. eauto.
Qed.

Lemma pressed_clicked_text m i st b r s :
  autosave_msg st = Some m -> msgs st !! m = Some b ->
  mb_buttons b !! i = Some (s, r) ->
  clicked_text (pressed m i st) = Some s.
Proof.
  intros Hm Hl Hb. unfold clicked_text, pressed. cbn [autosave_msg msgs set_msgs].
  rewrite Hm, list_lookup_alter_eq, Hl. cbn. now rewrite Hb.
Qed.

Lemma steps_reachable evs st st' :
  reachable st -> steps evs st = Some st' -> reachable st'.
Proof.
  revert st. induction evs as [|ev evs IH]; intros st H E; cbn [steps] in E.
  - now injection E as <-.
  - destruct (step ev st) as [st1|] eqn:E1; [|discriminate].
    exact (IH st1 (reach_step st ev st1 H E1) E).
Qed.

Lemma should_autosave_timer_run_muted st :
  autosave_session_mute st = true -> fst (should_autosave_timer_run st) = Ret false.
Proof.
  intros H. rewrite should_autosave_timer_run_eq. cbn [fst].
  now rewrite should_run_muted.
Qed.

(** C3. When the user answers the prompt the manager holds with "No, don't
    ask again in this session", Qt calls [auto_save_done], which sets
    [autosave_session_mute] and calls [start_autosave_timer(quit=True)]: it
    returns, its calls begin with the stop of the running timer (if one
    runs), no timer is started and no timer runs afterwards.  From then on,
    whatever happens in the session (timer expiries, answers to any prompt,
    scene events, setup, changes of the interval or of the host), the flag
    stays set, no timer runs, and the trace gains neither a timer start nor
    the show of a prompt; [should_autosave_timer_run] returns False, as it
    does in every state where the flag is set. *)
Theorem mute_ends_prompting
    (st0 : state) (m i : nat) (a : answer) (b : QMessageBox) (r : button_role)
    (evs : list event) (st2 : state) :
  reachable st0 ->
  autosave_msg st0 = Some m ->
  msgs st0 !! m = Some b ->
  mb_visible b = true ->
  chosen b a = Some i ->
  mb_buttons b !! i = Some (mute_label, r) ->
  let st := pressed m i st0 in
  let st1 := snd (auto_save_done (Z.of_nat i) st) in
  steps evs st1 = Some st2 ->
  step (Answer m a) st0 = Some st1 /\
  auto_save_done (Z.of_nat i) st = start_autosave_timer true (set_mute true st) /\
  fst (auto_save_done (Z.of_nat i) st) = Ret tt /\
  autosave_session_mute st1 = true /\
  idle st1 /\
  (exists rest, new_calls st0 st1 = stop_calls st0 ++ rest) /\
  forallb quiet (new_calls st0 st1) = true /\
  autosave_session_mute st2 = true /\
  idle st2 /\
  forallb quiet (new_calls st1 st2) = true /\
  fst (should_autosave_timer_run st2) = Ret false /\
  (forall s, autosave_session_mute s = true ->
             fst (should_autosave_timer_run s) = Ret false).
Proof.
  intros Hr Hm Hl Hv Hch Hb. cbv zeta. intros Hsteps.
  pose proof (reachable_wf st0 Hr) as Hwf.
  pose proof (pressed_wf m i st0 Hwf) as Hwfp.
  pose proof (pressed_clicked_text m i st0 b r mute_label Hm Hl Hb) as Hc.
  assert (Heq : auto_save_done (Z.of_nat i) (pressed m i st0) =
                start_autosave_timer true (set_mute true (pressed m i st0))).
  { rewrite auto_save_done_eq, Hc. reflexivity. }
  set (st1 := snd (auto_save_done (Z.of_nat i) (pressed m i st0))) in *.
  assert (Hstep : step (Answer m a) st0 = Some st1).
  { cbn [step]. rewrite Hl, Hv, Hch.
    destruct Hwf as (_ & _ & _ & Hf). now rewrite (Hf m b Hl). }
  destruct (auto_save_done_muted (Z.of_nat i) (set_mute true (pressed m i st0)) eq_refl)
    as (_ & _).
  assert (Hmute1 : autosave_session_mute st1 = true).
  { unfold st1. rewrite Heq.
    destruct (start_autosave_timer_frame true (set_mute true (pressed m i st0))) as (E & _).
    now rewrite E. }
  assert (Hwf1 : wf st1) by exact (step_wf _ _ _ Hwf Hstep).
  assert (Hq : extends quiet st0 st1).
  { unfold st1. rewrite Heq.
    apply (extends_same_trace _ _ (set_mute true (pressed m i st0))); [reflexivity|].
    apply start_autosave_timer_quiet. now left. }
  destruct (steps_muted evs st1 st2 (conj Hmute1 Hwf1) Hsteps) as ((Hmute2 & Hwf2) & Hq2).
  split; [exact Hstep|]. split; [exact Heq|].
  split; [rewrite Heq; apply start_autosave_timer_quit_returns|].
  split; [exact Hmute1|].
  split; [exact (proj1 (proj2 Hwf1) Hmute1)|].
  split.
  { destruct (start_autosave_timer_first true (set_mute true (pressed m i st0)))
      as (rest & E & _).
    exists rest. unfold st1. rewrite Heq. exact E. }
  split; [now apply extends_new_calls|].
  split; [exact Hmute2|].
  split; [exact (proj1 (proj2 Hwf2) Hmute2)|].
  split; [now apply extends_new_calls|].
  split; [now apply should_autosave_timer_run_muted|].
  exact should_autosave_timer_run_muted.
Qed.


Lemma mute_ends_prompting_witness :
  let evs := [SceneEvent AfterSave; Setup; HostChange host_on] in
  let st1 := snd (auto_save_done 2 (pressed 0 2 st_prompted)) in
  step (Answer 0 (Click 2)) st_prompted = Some st1 /\
  autosave_session_mute st1 = true /\
  forallb quiet (new_calls st1 (after evs st1)) = true.
Proof.
  cbv zeta.
  assert (R : reachable st_prompted).
  { apply (steps_reachable [Setup; TimerExpires 0%nat] (init host_off));
      [apply reach_init | vm_compute; reflexivity]. }
  unshelve epose proof
    (mute_ends_prompting st_prompted 0 2 (Click 2) prompt YesRole
       [SceneEvent AfterSave; Setup; HostChange host_on]
       (after [SceneEvent AfterSave; Setup; HostChange host_on]
              (snd (auto_save_done 2 (pressed 0 2 st_prompted))))
       R _ _ _ _ _ _) as H; try (vm_compute; reflexivity).
  split; [exact (proj1 H)|]. split; [exact (proj1 (proj2 (proj2 (proj2 H))))|].
  exact (proj1 (proj2 (proj2 (proj2 (proj2 (proj2 (proj2 (proj2 (proj2 (proj2 H)))))))))).
Defined.

(** ** One timer at a time *)




(** ** When the check recurs *)

Lemma expiry_eq st t tm :
  wf st -> timers st !! t = Some tm -> tm_active tm = true ->
  step (TimerExpires t) st =
    Some (snd (check_autosave (set_timers (alter expire t (timers st)) st))).
Proof.
  intros (Hs & _) Hl Ha. cbn [step]. rewrite Hl, Ha.
  destruct (Hs t tm Hl Ha) as (_ & _ & ->). reflexivity.
Qed.








(** ** Text intervals: what [int] and [float] accept *)

Lemma irun_fail s : Py.irun Py.IFail s = Py.IFail.
Proof. induction s as [|c s IH]; [reflexivity | exact IH]. Qed.

Lemma irun_leads q s : Py.irun q s = leads (summary_of s) q.
Proof. destruct q; try reflexivity. apply irun_fail. Qed.

Lemma summary_of_cons c s :
  summary_of (String c s) = after_class (Py.classify c) (summary_of s).
Proof.
  unfold summary_of at 1, after_class. cbn [Py.irun]. now rewrite !irun_leads.
Qed.

Lemma istate_eqb_eq a b : istate_eqb a b = true -> a = b.
Proof. destruct a, b; cbn; congruence. Qed.

Lemma summary_eqb_eq a b : summary_eqb a b = true -> a = b.
Proof.
  destruct a, b. unfold summary_eqb. cbn. intros H.
  repeat (apply andb_prop in H as (H & ?%istate_eqb_eq)).
  apply istate_eqb_eq in H. congruence.
Qed.

Lemma known_In t l : known t l = true -> In t l.
Proof.
  unfold known. rewrite existsb_exists. intros (x & Hx & E).
  apply summary_eqb_eq in E. now subst.
Qed.

Lemma all_summaries_closed t k :
  In t all_summaries -> In (after_class k t) all_summaries.
Proof.
  intros Ht. apply known_In.
  assert (C : forallb (fun t => forallb (fun k => known (after_class k t) all_summaries)
                                        classes) all_summaries = true)
    by (vm_compute; reflexivity).
  rewrite forallb_forall in C. specialize (C t Ht). rewrite forallb_forall in C.
  apply C. destruct k; cbn; tauto.
Qed.

Lemma summary_known s : In (summary_of s) all_summaries.
Proof.
  induction s as [|c s IH].
  - cbn. tauto.
  - rewrite summary_of_cons. now apply all_summaries_closed.
Qed.

Lemma irun_append q s1 s2 :
  Py.irun q (s1 ++ s2)%string = Py.irun (Py.irun q s1) s2.
Proof. revert q. induction s1 as [|c s1 IH]; intros q; [reflexivity | apply IH]. Qed.

Lemma iter_ext {A} (f g : A -> A) n x :
  (forall y, f y = g y) -> Nat.iter n f x = Nat.iter n g x.
Proof.
  intros H. induction n as [|n IH]; [reflexivity|].
  rewrite !Nat.iter_succ. now rewrite IH, H.
Qed.

Lemma irun_repeat n s q :
  Py.irun q (Py.str_repeat n s) = Nat.iter n (fun q => Py.irun q s) q.
Proof.
  revert q. induction n as [|n IH]; intros q; [reflexivity|].
  cbn [Py.str_repeat]. rewrite irun_append, IH.
  now rewrite (Nat.iter_succ_r n (fun q => Py.irun q s) q).
Qed.

Lemma repeated_accepts_eq s :
  Py.iaccepting (Py.irun Py.IStart (Py.str_mul (Py.str_mul s 60) 1000)) =
    repeated_accepts (summary_of s).
Proof.
  unfold repeated_accepts, Py.str_mul.
  change (Z.to_nat 1000) with 1000%nat. change (Z.to_nat 60) with 60%nat.
  rewrite irun_repeat. f_equal. apply iter_ext. intros q.
  rewrite irun_repeat. apply iter_ext. intros q'. apply irun_leads.
Qed.

(** If [int] accepts the text repeated 60 * 1000 times, the text is made of
    digits, with single underscores between them. *)
Lemma repeated_int_digits s :
  Py.int_of_str (Py.str_mul (Py.str_mul s 60) 1000) <> None ->
  Py.irun Py.ISigned s = Py.IDigits.
Proof.
  unfold Py.int_of_str. rewrite repeated_accepts_eq. intros H.
  assert (P : forallb (fun t => implb (repeated_accepts t)
                                      (istate_eqb (from_signed t) Py.IDigits))
                      all_summaries = true)
    by (vm_compute; reflexivity).
  rewrite forallb_forall in P. specialize (P _ (summary_known s)).
  destruct (repeated_accepts (summary_of s)); [|congruence].
  now apply istate_eqb_eq in P.
Qed.

Lemma irun_trail s : Py.irun Py.ITrail s <> Py.IDigits.
Proof.
  induction s as [|c s IH]; [discriminate|]. cbn [Py.irun].
  destruct (Py.classify c); cbn [Py.istep]; rewrite ?irun_fail; try discriminate.
  exact IH.
Qed.

Lemma irun_plain q s :
  q = Py.ISigned \/ q = Py.IDigits \/ q = Py.IUnder ->
  Py.irun q s = Py.IDigits -> plain s = true.
Proof.
  revert q. induction s as [|c s IH]; intros q Hq H; [reflexivity|].
  cbn [Py.irun] in H. cbn [plain].
  destruct Hq as [-> | [-> | ->]]; destruct (Py.classify c); cbn [Py.istep] in H;
    rewrite ?irun_fail in H; try discriminate;
    try (now apply irun_trail in H);
    (eapply IH; [|exact H]); auto.
Qed.

Lemma rstrip_plain s : plain s = true -> Py.rstrip s = s.
Proof.
  induction s as [|c s IH]; [reflexivity|]. cbn [plain Py.rstrip]. intros H.
  unfold Py.is_space.
  destruct (Py.classify c); try discriminate; rewrite (IH H); now destruct s.
Qed.

Lemma lstrip_plain s : plain s = true -> Py.lstrip s = s.
Proof.
  destruct s as [|c s]; [reflexivity|]. cbn [plain Py.lstrip]. unfold Py.is_space.
  now destruct (Py.classify c).
Qed.

Lemma append_snoc a c r :
  ((a ++ String c EmptyString) ++ r)%string = (a ++ String c r)%string.
Proof. induction a as [|x a IH]; [reflexivity|]. cbn. now rewrite IH. Qed.

Lemma append_empty a : (a ++ EmptyString)%string = a.
Proof. induction a as [|x a IH]; [reflexivity|]. cbn. now rewrite IH. Qed.

(** On digits with single underscores between them, [scan_digits] reads to
    the end. *)
Lemma scan_digits_all s :
  (Py.irun Py.IDigits s = Py.IDigits ->
   forall acc, exists ds, Py.scan_digits acc s = ((acc ++ ds)%string, EmptyString)) /\
  (Py.irun Py.IUnder s = Py.IDigits ->
   forall acc c, Py.classify c = Py.KUnder ->
     exists ds, Py.scan_digits acc (String c s) = ((acc ++ ds)%string, EmptyString)).
Proof.
  induction s as [|d s (IHd & IHu)].
  - split; [|discriminate]. intros _ acc. exists EmptyString.
    cbn. now rewrite append_empty.
  - split.
    + cbn [Py.irun]. intros H acc. cbn [Py.scan_digits].
      destruct (Py.classify d) eqn:Hd; cbn [Py.istep] in H;
        rewrite ?irun_fail in H; try discriminate; try (now apply irun_trail in H).
      * destruct (IHd H (acc ++ String d EmptyString)%string) as (ds & E).
        exists (String d ds). now rewrite E, append_snoc.
      * destruct (IHu H acc d Hd) as (ds & E). exists ds.
        cbn [Py.scan_digits] in E. now rewrite Hd in E.
    + cbn [Py.irun]. intros H acc c Hc. cbn [Py.scan_digits]. rewrite Hc.
      unfold Py.is_digit.
      destruct (Py.classify d) eqn:Hd; cbn [Py.istep] in H;
        rewrite ?irun_fail in H; try discriminate.
      destruct (IHd H (acc ++ String d EmptyString)%string) as (ds & E).
      exists (String d ds). now rewrite E, append_snoc.
Qed.

(** Digits with single underscores between them are a float literal. *)
Lemma digits_float s :
  Py.irun Py.ISigned s = Py.IDigits -> Py.float_of_str s <> None.
Proof.
  intros H. pose proof (irun_plain _ s (or_introl eq_refl) H) as Hp.
  unfold Py.float_of_str, Py.strip. rewrite (lstrip_plain s Hp), (rstrip_plain s Hp).
  destruct s as [|c r]; [discriminate|]. cbn [Py.irun] in H.
  destruct (Py.classify c) eqn:Hc; cbn [Py.istep] in H; rewrite ?irun_fail in H;
    try discriminate.
  cbn [Py.take_sign]. rewrite Hc.
  destruct (proj1 (scan_digits_all r) H (String c EmptyString)) as (ds & E).
  unfold Py.decimal, Py.digitpart, Py.is_digit. rewrite Hc, E.
  cbn. discriminate.
Qed.

(** A text that [float] rejects is rejected by [int] when repeated. *)
Lemma not_float_not_repeated_int s :
  Py.float_of_str s = None ->
  Py.int_of_str (Py.str_mul (Py.str_mul s 60) 1000) = None.
Proof.
  intros Hf.
  destruct (Py.int_of_str (Py.str_mul (Py.str_mul s 60) 1000)) as [z|] eqn:E;
    [|reflexivity].
  exfalso. apply (digits_float s); [|exact Hf].
  apply repeated_int_digits. congruence.
Qed.

(** C10. With a text for [autosave_interval] that [float] rejects (any
    non-numeric string), and when the timer should run,
    [start_autosave_timer()] raises: the ValueError of [float] is caught and
    logged as a warning, the attribute keeps the text, a timer is created and
    taken by the manager, and then [int] raises ValueError on the text
    repeated 60 * 1000 times; nothing catches it, and the new timer is never
    started. *)
Theorem start_autosave_timer_raises_on_text
    (st : state) (s : string) :
  autosave_interval st = Py.VStr s ->
  Py.float_of_str s = None ->
  should_run st = true ->
  let st' := snd (start_autosave_timer false st) in
  Py.float_ (Py.VStr s) = inl (Py.Exc Py.ValueError "could not convert string to float") /\
  fst (start_autosave_timer false st) =
    Raise (Py.Exc Py.ValueError "invalid literal for int() with base 10") /\
  autosave_interval st' = Py.VStr s /\
  autosave_timer st' = Some (length (timers st)) /\
  timers st' = stopped_timers st ++ [mkTimer true false 0 [SlotCheckAutosave]] /\
  (exists l1 l2,
      new_calls st st' =
        l1 ++ Log WARNING [FStr "Invalid autosave interval: "; FVal (Py.VStr s)]
           :: TimerNew (length (timers st)) :: l2) /\
  forallb no_start (new_calls st st') = true.
Proof.
  intros Hi Hf Hrun. cbv zeta.
  pose proof (not_float_not_repeated_int s Hf) as Hint.
  split; [unfold Py.float_; now rewrite Hf|].
  open_state st. subst itv. unfold should_run in Hrun. cbn in Hrun.
  destruct mute; [discriminate|].
  destruct (qapp_thread h) as [th|] eqn:Hq; [|discriminate].
  unfold start_autosave_timer, is_autosave_timer_active, should_autosave_timer_run.
  unfold stopped_timers, timer_is_active, new_calls. cbn [autosave_timer timers trace].
  run_py;
    repeat (first [rewrite Hf | rewrite Hint | rewrite Hq | rewrite Hrun | split_once];
            run_py);
    use_eqns; last_object; cbn [app];
    (split; [reflexivity|]); (split; [reflexivity|]);
    (split; [now rewrite ?length_alter|]); (split; [reflexivity|]);
    rewrite <- ?app_assoc; rewrite drop_app_length; rewrite ?length_alter;
    (split; [|reflexivity]);
    first [ exists [], [] ; reflexivity
          | exists [TimerStop n], []; reflexivity
          | exists [TimerStop n; MsgClose n0], []; reflexivity ].
Qed.

Lemma start_autosave_timer_raises_on_text_witness :
  autosave_interval st_text_interval = Py.VStr "abc" /\
  Py.float_of_str "abc" = None /\
  fst (start_autosave_timer false st_text_interval) =
    Raise (Py.Exc Py.ValueError "invalid literal for int() with base 10").
Proof.
  split; [reflexivity|]. split; [reflexivity|].
  exact (proj1 (proj2 (start_autosave_timer_raises_on_text st_text_interval "abc"
                         eq_refl eq_refl eq_refl))).
Defined.


(* ===================================================================== *)
(** * Further properties of the methods *)
(* ===================================================================== *)

(** ** [start_autosave_timer], case by case *)

(** X1. When the timer should not run (the session is muted, there is no
    QApplication, or the caller is not in its thread),
    [start_autosave_timer()] returns: it stops the running timer and closes
    the prompt as always, logs when muted, and does nothing else.  It creates
    no timer and does not look at [autosave_interval], whatever that holds. *)
Theorem start_autosave_timer_not_due (st : state) :
  should_run st = false ->
  let st' := snd (start_autosave_timer false st) in
  fst (start_autosave_timer false st) = Ret tt /\
  new_calls st st' = stop_calls st ++ muted_log st /\
  timers st' = stopped_timers st /\
  msgs st' = closed_msgs st /\
  autosave_timer st' = autosave_timer st /\
  autosave_interval st' = autosave_interval st.
Proof.
  intros Hrun. cbv zeta. open_state st. unfold should_run in Hrun. cbn in Hrun.
  unfold start_autosave_timer, is_autosave_timer_active, should_autosave_timer_run.
  unfold stopped_timers, closed_msgs, muted_log, stop_calls, timer_is_active, new_calls.
  cbn [autosave_timer autosave_msg autosave_session_mute timers msgs trace].
  destruct mute.
  - crunch; use_eqns; rewrite <- ?app_assoc; rewrite drop_app_length;
      repeat split; reflexivity.
  - destruct (qapp_thread h) as [th|] eqn:Hq.
    + run; repeat (first [rewrite Hq | rewrite Hrun | split_once]; run);
        use_eqns; rewrite <- ?app_assoc;
        first [rewrite drop_app_length | rewrite drop_all];
        repeat split; reflexivity.
    + run; repeat (first [rewrite Hq | split_once]; run);
        use_eqns; rewrite <- ?app_assoc;
        first [rewrite drop_app_length | rewrite drop_all];
        repeat split; reflexivity.
Qed.

Lemma start_autosave_timer_not_due_witness :
  should_run (after [Setup; HostChange (mkHost (reply autosave_on) None None 0%nat)]
                    (init host_off)) = false /\
  fst (start_autosave_timer false
         (after [Setup; HostChange (mkHost (reply autosave_on) None None 0%nat)]
                (init host_off))) = Ret tt.
Proof.
  split; [reflexivity|].
  exact (proj1 (start_autosave_timer_not_due
                  (after [Setup; HostChange (mkHost (reply autosave_on) None None 0%nat)]
                         (init host_off)) eq_refl)).
Defined.





(** X4. When the timer should run and [float] raises anything but
    ValueError on the interval (TypeError for None, OverflowError for an int
    beyond the floats), the [except ValueError] does not apply: the exception
    gets out of [start_autosave_timer()] before any timer is created.  The
    running timer has been stopped by then; the manager still holds it. *)
Theorem start_autosave_timer_float_error (st : state) (e : Py.exc) :
  should_run st = true ->
  Py.float_ (autosave_interval st) = inl e ->
  Py.exc_cls e <> Py.ValueError ->
  let st' := snd (start_autosave_timer false st) in
  fst (start_autosave_timer false st) = Raise e /\
  new_calls st st' = stop_calls st /\
  timers st' = stopped_timers st /\
  autosave_timer st' = autosave_timer st /\
  autosave_interval st' = autosave_interval st.
Proof.
  intros Hrun Hf He. cbv zeta. open_state st. unfold should_run in Hrun. cbn in Hrun.
  destruct mute; [discriminate|].
  destruct (qapp_thread h) as [th|] eqn:Hq; [|discriminate].
  unfold start_autosave_timer, is_autosave_timer_active, should_autosave_timer_run.
  unfold stopped_timers, stop_calls, timer_is_active, new_calls.
  cbn [autosave_timer autosave_msg timers trace].
  run; repeat (first [rewrite Hf | rewrite Hq | rewrite Hrun | split_once]; run);
    try congruence;
    use_eqns; rewrite <- ?app_assoc;
    first [rewrite drop_app_length | rewrite drop_all];
    repeat split; reflexivity.
Qed.

Lemma start_autosave_timer_float_error_witness :
  let st := after [Setup; SetInterval Py.VNone] (init host_off) in
  should_run st = true /\
  fst (start_autosave_timer false st) =
    Raise (Py.Exc Py.TypeError "float() argument must be a string or a number") /\
  timers (snd (start_autosave_timer false st)) = stopped_timers st.
Proof.
  cbv zeta. split; [reflexivity|].
  assert (Hc : Py.exc_cls (Py.Exc Py.TypeError "float() argument must be a string or a number")
               <> Py.ValueError) by discriminate.
  pose proof (start_autosave_timer_float_error
                (after [Setup; SetInterval Py.VNone] (init host_off))
                (Py.Exc Py.TypeError "float() argument must be a string or a number")
                eq_refl eq_refl Hc) as H.
  split; [exact (proj1 H) | exact (proj1 (proj2 (proj2 H)))].
Defined.


(** ** Calls that neither the callbacks nor setup make *)

Section Benign.

Variable p : call -> bool.
Hypothesis p_log : forall l msg, p (Log l msg) = true.
Hypothesis p_add : forall s, p (HouAddEventCallback s) = true.
Hypothesis p_save : p HouSave = true.
Hypothesis p_start : forall q st, extends p st (snd (start_autosave_timer q st)).

Lemma on_scene_file_saved_extends st :
  extends p st (snd (on_scene_file_saved st)).
Proof.
  rewrite on_scene_file_saved_eq. destruct (should_run st); cbn [snd].
  - apply p_start.
  - now apply should_autosave_timer_run_extends.
Qed.

Lemma scene_event_callback_extends e st :
  extends p st (snd (scene_event_callback e st)).
Proof.
  unfold scene_event_callback. destruct (hipFileEventType_eqb e AfterSave).
  - apply on_scene_file_saved_extends.
  - apply extends_refl.
Qed.

Lemma setup_extends st : extends p st (snd (setup st)).
Proof.
  rewrite setup_eq. cbv zeta.
  pose proof (should_autosave_timer_run_extends p st p_log) as H1.
  set (st1 := snd (should_autosave_timer_run st)) in *.
  assert (H2 : extends p st
                 (snd (if should_run st then start_autosave_timer false st1
                       else (Ret tt, st1)))).
  { destruct (should_run st); [|exact H1].
    eapply extends_trans; [exact H1 | apply p_start]. }
  destruct (if should_run st then _ else _) as [[[]|e] st2]; cbn [snd] in *; [|exact H2].
  eapply extends_trans; [exact H2|].
  exists [HouAddEventCallback SlotSceneEventCallback;
          Log DEBUG [FStr "Added Houdini hipFile event callback"]].
  split; [reflexivity|]. cbn. now rewrite p_add, p_log.
Qed.

Lemma auto_save_done_extends action st :
  extends p st (snd (auto_save_done action st)).
Proof.
  rewrite auto_save_done_eq. destruct (clicked_text st) as [s|]; [|apply p_start].
  destruct (s =? save_label)%string.
  - eapply extends_trans; [apply save_scene_extends; auto | apply p_start].
  - destruct (s =? mute_label)%string; [|apply p_start].
    apply (extends_same_trace _ _ (set_mute true st)); [reflexivity | apply p_start].
Qed.

Lemma call_slots_extends l pl st :
  Forall (fun s => s <> SlotCheckAutosave) l ->
  extends p st (call_slots l pl st).
Proof.
  intros Hl. revert st. induction Hl as [|s l Hs _ IH]; intros st; cbn [call_slots].
  - apply extends_refl.
  - eapply extends_trans; [|apply IH].
    destruct s; [congruence| |]; destruct pl; cbn [call_slot];
      try apply auto_save_done_extends; try apply scene_event_callback_extends;
      apply extends_refl.
Qed.

End Benign.

Lemma start_autosave_timer_no_prompt quit st :
  extends no_prompt st (snd (start_autosave_timer quit st)).
Proof.
  destruct (start_autosave_timer_frame quit st) as (_ & _ & _ & _ & H).
  revert H. apply extends_weaken. intros c. unfold no_prompt.
  destruct (is_save c), (is_msg_show c), (is_msg_new c); cbn; congruence.
Qed.

Lemma wired_no_check st :
  wired st ->
  Forall (fun s => s <> SlotCheckAutosave) (callbacks st) /\
  forall m b, msgs st !! m = Some b ->
              Forall (fun s => s <> SlotCheckAutosave) (mb_finished b).
Proof.
  intros (Hc & Hf). split.
  - eapply Forall_impl; [exact Hc|]. intros s <-. discriminate.
  - intros m b Hl. rewrite (Hf m b Hl). repeat constructor. discriminate.
Qed.

(** A step that is no timer expiry only calls slots other than
    [check_autosave], so it adds only calls that [start_autosave_timer], the
    logger, the save and the registration may make. *)
Lemma step_extends (p : call -> bool) ev st st' :
  (forall l msg, p (Log l msg) = true) ->
  (forall s, p (HouAddEventCallback s) = true) ->
  p HouSave = true ->
  (forall q st, extends p st (snd (start_autosave_timer q st))) ->
  wf st -> step ev st = Some st' ->
  (forall t, ev <> TimerExpires t) ->
  extends p st st'.
Proof.
  intros P1 P2 P3 P4 Hwf E Hev.
  destruct (wired_no_check st (proj2 (proj2 Hwf))) as (Hc & Hf).
  destruct ev as [|t|m a|e|v|h]; cbn [step] in E.
  - injection E as <-. now apply setup_extends.
  - now destruct (Hev t).
  - destruct (msgs st !! m) as [b|] eqn:Hl; [|discriminate].
    destruct (mb_visible b); [|discriminate].
    destruct (chosen b a) as [i|]; [|discriminate]. injection E as <-.
    apply (extends_same_trace _ _ (pressed m i st)); [reflexivity|].
    apply call_slots_extends; eauto.
  - injection E as <-. apply call_slots_extends; auto.
  - injection E as <-. exists []. now rewrite app_nil_r.
  - injection E as <-. exists []. now rewrite app_nil_r.
Qed.

Lemma no_prompt_filter l :
  forallb no_prompt l = true ->
  List.filter (fun c => is_msg_new c || is_msg_show c) l = [].
Proof.
  induction l as [|c l IH]; [reflexivity|]. cbn. intros H.
  apply andb_prop in H as (Hc & Hl). unfold no_prompt in Hc.
  destruct (is_msg_new c), (is_msg_show c); try discriminate. cbn. auto.
Qed.

(** X6. In a session a prompt is created and shown only by the expiry of
    the timer, and only when the host's autosave is off: one box per expiry.
    No other event (an answer, a scene event, setup, a change of interval or
    host) creates or shows a message box. *)
Theorem prompts_only_at_expiry (st : state) (ev : event) (st' : state) :
  reachable st ->
  step ev st = Some st' ->
  List.filter (fun c => is_msg_new c || is_msg_show c) (new_calls st st') =
    match ev with
    | TimerExpires _ =>
        if host_autosave_on st then []
        else [MsgNew (length (msgs st)); MsgShow (length (msgs st))]
    | _ => []
    end.
Proof.
  intros Hr E. pose proof (reachable_wf st Hr) as Hwf.
  assert (G : (forall t, ev <> TimerExpires t) ->
              List.filter (fun c => is_msg_new c || is_msg_show c) (new_calls st st') = []).
  { intros Hev. apply no_prompt_filter, extends_new_calls.
    apply (step_extends no_prompt ev st st'); auto.
    apply start_autosave_timer_no_prompt. }
  destruct ev as [|t|m a|e|v|h]; try (apply G; discriminate).
  clear G.
  assert (Hx : exists tm, timers st !! t = Some tm /\ tm_active tm = true).
  { cbn [step] in E. destruct (timers st !! t) as [tm|]; [|discriminate].
    destruct (tm_active tm) eqn:Ha; [eauto | discriminate]. }
  destruct Hx as (tm & Hl & Ha).
  rewrite (expiry_eq st t tm Hwf Hl Ha) in E. injection E as <-.
  rewrite check_autosave_eq. cbv zeta.
  change (host_autosave_on (set_timers _ st)) with (host_autosave_on st).
  destruct (host_autosave_on st); cbn [snd];
    erewrite new_calls_app
      by (cbn [trace set_trace set_timers]; rewrite <- ?app_assoc; reflexivity);
    reflexivity.
Qed.

Lemma prompts_only_at_expiry_witness :
  step (Answer 0 (Click 0)) st_prompted <> None /\
  List.filter (fun c => is_msg_new c || is_msg_show c)
              (new_calls st_prompted (after [Answer 0 (Click 0)] st_prompted)) = [].
Proof.
  split; [vm_compute; discriminate|].
  assert (R : reachable st_prompted).
  { apply (steps_reachable [Setup; TimerExpires 0%nat] (init host_off));
      [apply reach_init | vm_compute; reflexivity]. }
  assert (E : step (Answer 0 (Click 0)) st_prompted =
              Some (after [Answer 0 (Click 0)] st_prompted))
    by (vm_compute; reflexivity).
  exact (prompts_only_at_expiry st_prompted (Answer 0 (Click 0)) _ R E).
Defined.

(** ** Saving, in a session *)

Lemma auto_save_done_saves action st :
  saves (new_calls st (snd (auto_save_done action st))) =
    match clicked_text st with
    | Some s => if (s =? save_label)%string then 1%nat else 0%nat
    | None => 0%nat
    end.
Proof.
  rewrite auto_save_done_eq. destruct (clicked_text st) as [s|] eqn:Hc.
  - destruct (s =? save_label)%string eqn:Hs.
    + pose proof (start_autosave_timer_no_save false (snd (save_scene st))) as Hx.
      rewrite (new_calls_trans (fun _ => true) no_save st (snd (save_scene st)));
        [|apply save_scene_extends; reflexivity | exact Hx].
      unfold saves in *. rewrite List.filter_app, length_app.
      fold (saves (new_calls (snd (save_scene st))
              (snd (start_autosave_timer false (snd (save_scene st)))))).
      rewrite (extends_no_save_saves _ _ Hx), save_scene_new_calls.
      now destruct (save_failure (host st)).
    + apply extends_no_save_saves.
      destruct (s =? mute_label)%string.
      * apply (extends_same_trace _ _ (set_mute true st)); [reflexivity|].
        apply start_autosave_timer_no_save.
      * apply start_autosave_timer_no_save.
  - apply extends_no_save_saves, start_autosave_timer_no_save.
Qed.

Lemma call_slots_no_save l pl st :
  Forall (eq SlotSceneEventCallback) l -> extends no_save st (call_slots l pl st).
Proof.
  intros Hl. revert st. induction Hl as [|s l <- _ IH]; intros st; cbn [call_slots].
  - apply extends_refl.
  - eapply extends_trans; [|apply IH].
    destruct pl; cbn [call_slot]; try apply extends_refl.
    apply scene_event_callback_no_save.
Qed.

(** X7. In a session the scene is saved only in answer to a prompt: the
    step for an answer saves once when the button that [auto_save_done]
    reads is "Save" and not at all otherwise, and no other step (a timer
    expiry, a scene event, setup, a change of interval or host) saves. *)
Theorem session_saves_only_on_answer (st : state) (ev : event) (st' : state) :
  reachable st ->
  step ev st = Some st' ->
  saves (new_calls st st') =
    match ev with
    | Answer m a =>
        match option_map (fun i => clicked_text (pressed m i st))
                         (match msgs st !! m with
                          | Some b => chosen b a
                          | None => None
                          end) with
        | Some (Some s) => if (s =? save_label)%string then 1%nat else 0%nat
        | _ => 0%nat
        end
    | _ => 0%nat
    end.
Proof.
  intros Hr E. pose proof (reachable_wf st Hr) as Hwf.
  destruct ev as [|t|m a|e|v|h]; cbn [step] in E.
  - injection E as <-. apply extends_no_save_saves, setup_no_save.
  - destruct (timers st !! t) as [tm|] eqn:Hl; [|discriminate].
    destruct (tm_active tm) eqn:Ha; [|discriminate].
    destruct (proj1 Hwf t tm Hl Ha) as (_ & _ & Ht). rewrite Ht in E.
    injection E as <-. cbn [call_slots call_slot].
    apply extends_no_save_saves.
    apply (extends_same_trace _ _ (set_timers (alter expire t (timers st)) st));
      [reflexivity | apply check_autosave_no_save].
  - destruct (msgs st !! m) as [b|] eqn:Hl; [|discriminate].
    destruct (mb_visible b); [|discriminate].
    destruct (chosen b a) as [i|]; [|discriminate]. injection E as <-.
    destruct Hwf as (_ & _ & _ & Hf). rewrite (Hf m b Hl).
    cbn [call_slots call_slot option_map].
    change (new_calls st (snd (auto_save_done (Z.of_nat i) (pressed m i st))))
      with (new_calls (pressed m i st)
                      (snd (auto_save_done (Z.of_nat i) (pressed m i st)))).
    apply auto_save_done_saves.
  - injection E as <-. apply extends_no_save_saves, call_slots_no_save, Hwf.
  - injection E as <-. unfold new_calls. cbn [trace set_interval].
    now rewrite drop_all.
  - injection E as <-. unfold new_calls. cbn [trace set_host].
    now rewrite drop_all.
Qed.

Lemma session_saves_only_on_answer_witness :
  step (Answer 0 (Click 0)) st_prompted =
    Some (after [Answer 0 (Click 0)] st_prompted) /\
  saves (new_calls st_prompted (after [Answer 0 (Click 0)] st_prompted)) = 1%nat.
Proof.
  assert (R : reachable st_prompted).
  { apply (steps_reachable [Setup; TimerExpires 0%nat] (init host_off));
      [apply reach_init | vm_compute; reflexivity]. }
  assert (E : step (Answer 0 (Click 0)) st_prompted =
              Some (after [Answer 0 (Click 0)] st_prompted))
    by (vm_compute; reflexivity).
  split; [exact E|].
  exact (session_saves_only_on_answer st_prompted (Answer 0 (Click 0)) _ R E).
Defined.

(** ** Setup and the scene events *)

(** X8. [setup] registers [scene_event_callback] with the host once and
    returns, unless starting the timer raises.  When the timer should not run
    (muted, no QApplication, another thread) the callback is registered all
    the same and the timers are untouched.  When [start_autosave_timer()]
    raises, the exception gets out of [setup] and the callback is not
    registered. *)
Theorem setup_registers_callback (st : state) :
  let st' := snd (setup st) in
  if should_run st
  then match start_autosave_timer false st with
       | (Ret _, st2) =>
           fst (setup st) = Ret tt /\
           callbacks st' = callbacks st ++ [SlotSceneEventCallback] /\
           timers st' = timers st2 /\ autosave_timer st' = autosave_timer st2
       | (Raise e, st2) =>
           setup st = (Raise e, st2) /\ callbacks st2 = callbacks st
       end
  else fst (setup st) = Ret tt /\
       callbacks st' = callbacks st ++ [SlotSceneEventCallback] /\
       timers st' = timers st /\ autosave_timer st' = autosave_timer st /\
       new_calls st st' =
         muted_log st ++ [HouAddEventCallback SlotSceneEventCallback;
                          Log DEBUG [FStr "Added Houdini hipFile event callback"]].
Proof.
  cbv zeta. rewrite setup_eq. cbv zeta. rewrite should_autosave_timer_run_eq.
  cbn [snd]. destruct (should_run st) eqn:Hrun.
  - assert (Hm : autosave_session_mute st = false).
    { unfold should_run in Hrun. now destruct (autosave_session_mute st). }
    rewrite Hm.
    destruct (start_autosave_timer_frame false st) as (_ & _ & Ec & _).
    destruct (start_autosave_timer false st) as [[[]|e] st2]; cbn [fst snd] in *.
    + repeat split. cbn [callbacks set_trace set_callbacks]. now rewrite Ec.
    + split; [reflexivity | exact Ec].
  - unfold muted_log.
    destruct (autosave_session_mute st); cbn [fst snd];
      repeat split; apply new_calls_app; cbn [trace set_trace set_callbacks];
      now rewrite <- ?app_assoc.
Qed.

(** X9. [scene_event_callback] reacts to AfterSave only: for every other
    hip file event it returns and changes nothing, and so the host reporting
    such an event leaves a session exactly as it was. *)
Theorem other_scene_events_ignored (st : state) (e : hipFileEventType) :
  reachable st ->
  e <> AfterSave ->
  scene_event_callback e st = (Ret tt, st) /\
  step (SceneEvent e) st = Some st.
Proof.
  intros Hr He.
  assert (Hb : hipFileEventType_eqb e AfterSave = false)
    by (destruct e; try reflexivity; congruence).
  assert (G : forall s, scene_event_callback e s = (Ret tt, s))
    by (intros s; unfold scene_event_callback; now rewrite Hb).
  split; [apply G|]. cbn [step]. f_equal.
  destruct (reachable_wf st Hr) as (_ & _ & Hc & _).
  induction Hc as [|s l <- _ IH]; [reflexivity|].
  cbn [call_slots call_slot]. now rewrite G.
Qed.

Lemma other_scene_events_ignored_witness :
  step (SceneEvent BeforeSave) st_prompted = Some st_prompted.
Proof.
  assert (R : reachable st_prompted).
  { apply (steps_reachable [Setup; TimerExpires 0%nat] (init host_off));
      [apply reach_init | vm_compute; reflexivity]. }
  assert (N : BeforeSave <> AfterSave) by discriminate.
  exact (proj2 (other_scene_events_ignored st_prompted BeforeSave R N)).
Defined.

(** ** The answer, the flag and the exceptions *)

(** X10. When [auto_save_done] finds no button to read (the manager holds no
    prompt, or the prompt has no clicked button) or a button that is neither
    "Save" nor the mute button, it is just [start_autosave_timer()]: nothing is
    read off a missing prompt, the scene is not saved and the mute flag is
    left alone. *)
Theorem auto_save_done_other_button (st : state) (action : Z) :
  clicked_text st <> Some save_label ->
  clicked_text st <> Some mute_label ->
  let st' := snd (auto_save_done action st) in
  auto_save_done action st = start_autosave_timer false st /\
  saves (new_calls st st') = 0%nat /\
  autosave_session_mute st' = autosave_session_mute st /\
  (autosave_msg st = None -> clicked_text st = None).
Proof.
  intros Hs Hm. cbv zeta.
  assert (E : auto_save_done action st = start_autosave_timer false st).
  { rewrite auto_save_done_eq. destruct (clicked_text st) as [s|]; [|reflexivity].
    destruct (String.eqb_spec s save_label) as [->|_]; [congruence|].
    destruct (String.eqb_spec s mute_label) as [->|_]; [congruence|]. reflexivity. }
  rewrite E. split; [reflexivity|]. split; [|split].
  - apply extends_no_save_saves, start_autosave_timer_no_save.
  - apply start_autosave_timer_frame.
  - intros Hn. unfold clicked_text. now rewrite Hn.
Qed.

Lemma auto_save_done_other_button_witness :
  autosave_msg st_running = None /\
  auto_save_done 2 st_running = start_autosave_timer false st_running.
Proof.
  split; [reflexivity|].
  assert (H1 : clicked_text st_running <> Some save_label) by (vm_compute; discriminate).
  assert (H2 : clicked_text st_running <> Some mute_label) by (vm_compute; discriminate).
  exact (proj1 (auto_save_done_other_button st_running 2 H1 H2)).
Defined.

Lemma setup_mute st :
  autosave_session_mute (snd (setup st)) = autosave_session_mute st.
Proof.
  rewrite setup_eq. cbv zeta.
  set (st1 := snd (should_autosave_timer_run st)).
  assert (E1 : autosave_session_mute st1 = autosave_session_mute st).
  { unfold st1. rewrite should_autosave_timer_run_eq. cbn [snd].
    now destruct st as [[] ? ? ? ? ? ? ? ?]. }
  destruct (should_run st).
  - destruct (start_autosave_timer_frame false st1) as (E & _).
    destruct (start_autosave_timer false st1) as [[[]|e] st2]; cbn [snd] in *;
      now rewrite <- E1, <- E.
  - exact E1.
Qed.

(** X11. The mute flag is set by the mute button and by nothing else, and
    nothing clears it: after a call of any method the flag is what it was,
    except that [auto_save_done] sets it when the button it reads is
    "No, don't ask again in this session". *)
Theorem mute_set_only_by_button (m : method) (st : state) :
  autosave_session_mute (exec m st) =
    match m with
    | m_auto_save_done _ =>
        match clicked_text st with
        | Some s => if (s =? mute_label)%string then true
                    else autosave_session_mute st
        | None => autosave_session_mute st
        end
    | _ => autosave_session_mute st
    end.
Proof.
  assert (G : forall q s, autosave_session_mute (snd (start_autosave_timer q s)) =
                          autosave_session_mute s)
    by (intros q s; apply start_autosave_timer_frame).
  destruct m; cbn [exec].
  - now rewrite autosave_enabled_eq.
  - apply save_scene_frame.
  - rewrite should_autosave_timer_run_eq. cbn [snd].
    now destruct (autosave_session_mute st) eqn:E.
  - now rewrite is_autosave_timer_active_eq.
  - apply G.
  - rewrite check_autosave_eq. cbv zeta. now destruct (host_autosave_on st).
  - rewrite auto_save_done_eq. destruct (clicked_text st) as [s|]; [|apply G].
    destruct (String.eqb_spec s save_label) as [->|_].
    + change (save_label =? mute_label)%string with false. cbv iota.
      rewrite G. apply save_scene_frame.
    + destruct (s =? mute_label)%string; rewrite G; reflexivity.
  - rewrite on_scene_file_saved_eq. destruct (should_run st); [apply G|].
    rewrite should_autosave_timer_run_eq. cbn [snd].
    now destruct (autosave_session_mute st) eqn:E.
  - unfold scene_event_callback.
    destruct (hipFileEventType_eqb event_type AfterSave); [|reflexivity].
    rewrite on_scene_file_saved_eq. destruct (should_run st); [apply G|].
    rewrite should_autosave_timer_run_eq. cbn [snd].
    now destruct (autosave_session_mute st) eqn:E.
  - apply setup_mute.
Qed.






(** ** Loading the script *)

(** X14. Loading the script (a fresh manager, then [setup]) never raises and
    never asks the host whether its autosave is on.  In the GUI thread it
    leaves one running single-shot timer of 12000 ms (the default 0.2
    minutes) wired to [check_autosave]; outside it, or without a
    QApplication, it creates no timer at all.  Either way the scene event
    callback is registered once, no prompt exists and the session is not
    muted. *)
Theorem load_script (h : Host) :
  setup (init h) =
    (Ret tt,
     if should_run (init h)
     then mkState false (Some 0%nat) None (Py.VFloat 0x1.999999999999ap-3%float)
            [mkTimer true true 12000 [SlotCheckAutosave]] [] [SlotSceneEventCallback] h
            [Log DEBUG [FStr "Autosave plugin loaded"];
             TimerNew 0; TimerStart 0 12000;
             Log DEBUG [FStr "Started autosave timer: ";
                        FVal (Py.VFloat 0x1.999999999999ap-3%float); FStr "min"];
             HouAddEventCallback SlotSceneEventCallback;
             Log DEBUG [FStr "Added Houdini hipFile event callback"]]
     else mkState false None None (Py.VFloat 0x1.999999999999ap-3%float)
            [] [] [SlotSceneEventCallback] h
            [Log DEBUG [FStr "Autosave plugin loaded"];
             HouAddEventCallback SlotSceneEventCallback;
             Log DEBUG [FStr "Added Houdini hipFile event callback"]]).
Proof.
  assert (Ht : Py.trunc (0x1.999999999999ap-3 * Py.float_of_Z 60 * Py.float_of_Z 1000)%float
               = Some 12000) by (vm_compute; reflexivity).
  unfold should_run, init. cbn [autosave_session_mute host].
  unfold setup, start_autosave_timer, is_autosave_timer_active, should_autosave_timer_run.
  destruct (qapp_thread h) as [th|] eqn:Hq.
  - destruct (th =? current_thread h)%nat eqn:E.
    + run_py; repeat (first [rewrite Hq | rewrite E | rewrite Ht]; run_py).
      reflexivity.
    + run_py; repeat (first [rewrite Hq | rewrite E | rewrite Ht]; run_py). reflexivity.
  - run_py; repeat (first [rewrite Hq | rewrite E | rewrite Ht]; run_py). reflexivity.
Qed.

(* ===================================================================== *)
(** * Examples *)
(* ===================================================================== *)

(** The default interval, 0.2 minutes, is 12000 milliseconds. *)
Example default_interval_msec :
  interval_msec 0x1.999999999999ap-3%float = inr 12000.
Proof. vm_compute. reflexivity. Qed.

Example float_of_str_decimal :
  Py.float_of_str "0.2" = Some 0x1.999999999999ap-3%float /\
  Py.float_of_str "  -1_000.5e-2 " = Some (-0x1.4028f5c28f5c3p+3)%float /\
  Py.float_of_str "1.e5" = Some 0x1.86ap+16%float /\
  Py.float_of_str "+.5" = Some 0x1p-1%float /\
  Py.float_of_str "1e400" = Some infinity /\
  Py.float_of_str "-Infinity" = Some neg_infinity.
Proof. vm_compute. repeat split. Qed.

Example float_of_str_rejects :
  map Py.float_of_str
      [""; "abc"; "1_"; "_1"; "1__0"; "."; ".e5"; "1e"; "1e+_5"; "0x10"; "+-5"; "1 2"; "nans"]
  = [None; None; None; None; None; None; None; None; None; None; None; None; None].
Proof. vm_compute. reflexivity. Qed.

Example int_of_str_examples :
  map Py.int_of_str [" -1_000 "; "007"; "+5"; ""; "1_"; "+-1"; "1 2"; "1.0"; "abc"]
  = [Some (-1000); Some 7; Some 5; None; None; None; None; None; None].
Proof. vm_compute. reflexivity. Qed.

(** A numeric text is converted and the timer starts. *)
Example numeric_text_interval :
  option_map (fun st => (autosave_interval st, timer_is_active st))
             (steps [Setup; SetInterval (Py.VStr "0.5"); SceneEvent AfterSave]
                    (init host_off))
  = Some (Py.VFloat 0x1p-1%float, true).
Proof. vm_compute. reflexivity. Qed.

(** What the script calls from its load to the first prompt. *)
Example trace_to_first_prompt :
  trace st_prompted =
    [Log DEBUG [FStr "Autosave plugin loaded"];
     TimerNew 0; TimerStart 0 12000;
     Log DEBUG [FStr "Started autosave timer: ";
                FVal (Py.VFloat 0x1.999999999999ap-3%float); FStr "min"];
     HouAddEventCallback SlotSceneEventCallback;
     Log DEBUG [FStr "Added Houdini hipFile event callback"];
     Log DEBUG [FStr "Autosave timer triggered"];
     HouHscript "autosave";
     Log DEBUG [FStr "Autosave enabled: "; FBool false];
     HouHscript "autosave";
     MsgNew 0; MsgShow 0].
Proof. vm_compute. reflexivity. Qed.

(** A save that fails is logged and the timer restarts all the same. *)
Example failed_save_restarts :
  option_map (fun st => (new_calls st_prompted st, timer_is_active st))
             (step (Answer 0 (Click 0)) (set_host host_readonly st_prompted))
  = Some ([HouSave;
           Log ERROR [FStr "Error saving scene: ";
                      FExc (Py.Exc (Py.HouError "OperationFailed") "Unable to save")];
           TimerNew 1; TimerStart 1 12000;
           Log DEBUG [FStr "Started autosave timer: ";
                      FVal (Py.VFloat 0x1.999999999999ap-3%float); FStr "min"]],
          true).
Proof. vm_compute. reflexivity. Qed.

(** An expired timer does not expire again, and a prompt is answered once. *)
Example events_not_enabled :
  step (TimerExpires 0) st_prompted = None /\
  steps [Answer 0 Dismiss; Answer 0 Dismiss] st_prompted = None.
Proof. vm_compute. split; reflexivity. Qed.
